(** * LiveBid auction store: a shallow embedding of
      [packages/server/src/store/auctionStore.js] and
      [packages/server/src/socket/bidHandler.js].

    The store is module-level mutable state ([auctionItems], [itemLocks]);
    here it is a record threaded through every operation.  [Date.now()] and
    [uuidv4()] are external: the value each call would return is an argument
    of the operation that makes the call. *)

From Stdlib Require Import ZArith String Ascii List Bool Lia.
From Stdlib Require Import Sorted QArith Qround Lqa.
From stdpp Require Import base decidable countable option list gmap strings numbers.

Local Open Scope Z_scope.
Local Open Scope string_scope.
#[local] Set Warnings "-clear-no-such-hyp".

(** ** JavaScript values *)

Module JS.

(** A JS Number, restricted to what the store ever computes with: [NaN] or a
    finite integer-valued number (prices in whole currency units, clock
    readings in milliseconds).  Numbers are only compared and stored, and the
    one addition ([now + duration]) is exact on integers below 2^53. *)
Inductive number : Type :=
  | NaN
  | Fin (z : Z).

(** The primitive values a socket payload field or a [placeBid] argument can
    hold. *)
Inductive value : Type :=
  | VUndefined
  | VNull
  | VBool (b : bool)
  | VNum (n : number)
  | VStr (s : string).

#[global] Instance number_eq_dec : EqDecision number.
Proof. solve_decision. Defined.

#[global] Instance value_eq_dec : EqDecision value.
Proof. solve_decision. Defined.

Definition value_code (v : value) : unit + (unit + (bool + (option Z + string))) :=
  match v with
  | VUndefined => inl tt
  | VNull => inr (inl tt)
  | VBool b => inr (inr (inl b))
  | VNum NaN => inr (inr (inr (inl None)))
  | VNum (Fin z) => inr (inr (inr (inl (Some z))))
  | VStr s => inr (inr (inr (inr s)))
  end.

Definition value_decode (c : unit + (unit + (bool + (option Z + string)))) : value :=
  match c with
  | inl _ => VUndefined
  | inr (inl _) => VNull
  | inr (inr (inl b)) => VBool b
  | inr (inr (inr (inl None))) => VNum NaN
  | inr (inr (inr (inl (Some z)))) => VNum (Fin z)
  | inr (inr (inr (inr s))) => VStr s
  end.

(** Structural equality on [value] is the SameValueZero comparison a JS [Map]
    uses for its keys ([NaN] is the same key as [NaN]). *)
#[global] Instance value_countable : Countable value :=
  inj_countable' value_code value_decode
    (fun v => match v with
              | VNum NaN | VNum (Fin _) | _ => eq_refl
              end).

(** [ToBoolean]: the falsy values are [undefined], [null], [false], [0],
    [NaN] and the empty string. *)
Definition ToBoolean (v : value) : bool :=
  match v with
  | VUndefined | VNull => false
  | VBool b => b
  | VNum NaN => false
  | VNum (Fin z) => negb (z =? 0)%Z
  | VStr s => negb (String.eqb s "")
  end.

(** [x === y]: same type and same value, except that [NaN] equals nothing. *)
Definition strict_eq (x y : value) : bool :=
  match x, y with
  | VNum NaN, _ | _, VNum NaN => false
  | _, _ => bool_decide (x = y)
  end.

(** ** Numeric conversion and comparison *)

(** The Number a conversion yields, as the value it denotes: [NaN], an
    infinity, or a finite double written as the rational it is.  The two
    zeros are one value here; the program only compares numbers and tests
    them for truth, and neither tells [-0] from [+0]. *)
Inductive double : Type :=
  | DNaN
  | DInf (negative : bool)
  | DFin (q : Q).

Definition double_opp (d : double) : double :=
  match d with
  | DNaN => DNaN
  | DInf negative => DInf (negb negative)
  | DFin q => DFin (Qred (- q))
  end.

(** [2 ^ e] for any integer [e]. *)
Definition pow2 (e : Z) : Q :=
  if (0 <=? e)%Z then inject_Z (2 ^ e) else (1 # Z.to_pos (2 ^ (- e)))%Q.

(** The Number value for a positive rational [n / d]: the nearest double,
    ties to the even significand.  [e] is the binary exponent of [n / d],
    [u] the exponent of the unit in the last of the 53 places (never below
    that of the subnormal numbers, [-1074]), [m] the significand rounded
    down and [m'] rounded to nearest; from [2 ^ 1024] on the result is
    [+Infinity]. *)
Definition nearest_double (n d : positive) : double :=
  let n := Z.pos n in
  let d := Z.pos d in
  let e0 := (Z.log2 n - Z.log2 d)%Z in
  let below :=
    if (0 <=? e0)%Z then (n <? d * 2 ^ e0)%Z else (n * 2 ^ (- e0) <? d)%Z in
  let e := if below then (e0 - 1)%Z else e0 in
  let u := Z.max (e - 52) (-1074) in
  let num := if (0 <=? u)%Z then n else (n * 2 ^ (- u))%Z in
  let den := if (0 <=? u)%Z then (d * 2 ^ u)%Z else d in
  let m := (num / den)%Z in
  let r := (num mod den)%Z in
  let m' :=
    if (den <? 2 * r)%Z || ((den =? 2 * r)%Z && Z.odd m) then (m + 1)%Z else m in
  if (971 <? u)%Z || ((u =? 971)%Z && (2 ^ 53 <=? m')%Z) then DInf false
  else DFin (Qred (inject_Z m' * pow2 u)).

(** The Number value for a rational. *)
Definition round64 (q : Q) : double :=
  match Qnum q with
  | Z0 => DFin 0
  | Z.pos n => nearest_double n (Qden q)
  | Z.neg n => double_opp (nearest_double n (Qden q))
  end.

(** The sum of two integer-valued doubles whose exact sum is [z] and lies
    in the range of the finite doubles: [z] rounded to the nearest double,
    ties to even.  Up to [2 ^ 53] in absolute value that is [z] itself. *)
Definition nearest (z : Z) : Z :=
  let a := Z.abs z in
  let k := (Z.log2 a - 52)%Z in
  if (k <=? 0)%Z then z
  else
    let m := (a / 2 ^ k)%Z in
    let r := (a mod 2 ^ k)%Z in
    let half := (2 ^ (k - 1))%Z in
    let m' := if (half <? r)%Z || ((half =? r)%Z && Z.odd m) then (m + 1)%Z else m in
    (Z.sgn z * (m' * 2 ^ k))%Z.

(** A string is a sequence of UTF-16 code units; the strings here are those
    whose code units are all below 256, one [ascii] each.  Among these code
    units the white space and line terminators of [StrWhiteSpaceChar] are
    TAB, LF, VT, FF, CR, SP and NBSP. *)
Definition is_ws (c : ascii) : bool :=
  let n := Z.of_nat (nat_of_ascii c) in
  ((9 <=? n) && (n <=? 13) || (n =? 32) || (n =? 160))%Z.

Fixpoint trim_left (s : string) : string :=
  match s with
  | String c s' => if is_ws c then trim_left s' else s
  | EmptyString => EmptyString
  end.

Fixpoint rev_string (acc s : string) : string :=
  match s with
  | EmptyString => acc
  | String c s' => rev_string (String c acc) s'
  end.

Definition trim (s : string) : string :=
  rev_string "" (trim_left (rev_string "" (trim_left s))).

(** The value of a digit of the given base ([0]-[9], [a]-[f], [A]-[F]). *)
Definition digit_of (base : Z) (c : ascii) : option Z :=
  let n := Z.of_nat (nat_of_ascii c) in
  let v :=
    if ((48 <=? n) && (n <=? 57))%Z then Some (n - 48)%Z
    else if ((97 <=? n) && (n <=? 102))%Z then Some (n - 87)%Z
    else if ((65 <=? n) && (n <=? 70))%Z then Some (n - 55)%Z
    else None in
  match v with
  | Some d => if (d <? base)%Z then Some d else None
  | None => None
  end.

(** The longest run of digits at the start of [s]: its value after the
    digits in [acc], how many digits it has after the [count] counted so
    far, and the rest of [s]. *)
Fixpoint digits (base acc count : Z) (s : string) : Z * Z * string :=
  match s with
  | String c s' =>
      match digit_of base c with
      | Some d => digits base (base * acc + d) (count + 1) s'
      | None => (acc, count, s)
      end
  | EmptyString => (acc, count, s)
  end.

(** [ExponentPart], if any, up to the end of the text: [e] or [E], an
    optional sign, and at least one digit.  [None]: not well formed. *)
Definition exponent_part (s : string) : option Z :=
  match s with
  | EmptyString => Some 0
  | String c r =>
      if Ascii.eqb c "e" || Ascii.eqb c "E" then
        let '(negative, r') :=
          match r with
          | String "+" t => (false, t)
          | String "-" t => (true, t)
          | _ => (false, r)
          end in
        match digits 10 0 0 r' with
        | (v, n, EmptyString) =>
            if (0 <? n)%Z then Some (if negative then - v else v) else None
        | _ => None
        end
      else None
  end.

(** [m * 10 ^ e] as a rational. *)
Definition decimal_value (m e : Z) : Q :=
  if (0 <=? e)%Z then inject_Z (m * 10 ^ e) else (m # Z.to_pos (10 ^ (- e)))%Q.

(** [StrUnsignedDecimalLiteral]: [Infinity], or digits with an optional
    fraction and exponent, at least one digit before or after the point.
    The value is that of the literal, rounded to the nearest double (for
    more than 20 significant digits the standard also allows the literal
    cut to 20 digits to be rounded; V8 rounds the exact value). *)
Definition unsigned_decimal (t : string) : double :=
  if String.eqb t "Infinity" then DInf false
  else
    let '(a, na, r1) := digits 10 0 0 t in
    let '(b, nb, r2) :=
      match r1 with
      | String "." r => digits 10 0 0 r
      | _ => (0, 0, r1)
      end in
    if (na + nb =? 0)%Z then DNaN
    else
      match exponent_part r2 with
      | None => DNaN
      | Some e => round64 (decimal_value (a * 10 ^ nb + b) (e - nb))
      end.

(** The base a letter after a leading [0] announces. *)
Definition radix (c : ascii) : option Z :=
  if Ascii.eqb c "x" || Ascii.eqb c "X" then Some 16
  else if Ascii.eqb c "o" || Ascii.eqb c "O" then Some 8
  else if Ascii.eqb c "b" || Ascii.eqb c "B" then Some 2
  else None.

(** [NonDecimalIntegerLiteral] after its prefix: at least one digit of the
    base and nothing else. *)
Definition non_decimal (base : Z) (r : string) : double :=
  match digits base 0 0 r with
  | (v, n, EmptyString) => if (0 <? n)%Z then round64 (inject_Z v) else DNaN
  | _ => DNaN
  end.

(** [StringToNumber]: white space is trimmed at both ends; what is left is
    empty (the value is [0]), a decimal literal with an optional sign, or
    an unsigned binary, octal or hexadecimal integer literal.  Any other
    text is [NaN]. *)
Definition StringToNumber (s : string) : double :=
  match trim s with
  | EmptyString => DFin 0
  | String "+" r => unsigned_decimal r
  | String "-" r => double_opp (unsigned_decimal r)
  | String "0" (String x r) as t =>
      match radix x with
      | Some base => non_decimal base r
      | None => unsigned_decimal t
      end
  | t => unsigned_decimal t
  end.

Definition ToNumber (v : value) : double :=
  match v with
  | VUndefined => DNaN
  | VNull => DFin 0
  | VBool b => DFin (if b then 1 else 0)
  | VNum NaN => DNaN
  | VNum (Fin z) => DFin (inject_Z z)
  | VStr s => StringToNumber s
  end.

(** [x < y] on Numbers; [None] is the [undefined] result of a comparison
    that involves [NaN]. *)
Definition double_lt (x y : double) : option bool :=
  match x, y with
  | DNaN, _ | _, DNaN => None
  | DInf a, DInf b => Some (a && negb b)
  | DInf a, DFin _ => Some a
  | DFin _, DInf b => Some (negb b)
  | DFin a, DFin b => Some (negb (Qle_bool b a))
  end.

(** The abstract relational comparison [IsLessThan (x, y)]: two strings are
    compared by code units, anything else numerically. *)
Definition IsLessThan (x y : value) : option bool :=
  match x, y with
  | VStr a, VStr b => Some (String.ltb a b)
  | _, _ => double_lt (ToNumber x) (ToNumber y)
  end.

(** [x <= y] is [not (y < x)], and [false] when that comparison is undefined. *)
Definition le (x y : value) : bool :=
  match IsLessThan y x with
  | Some false => true
  | _ => false
  end.

(** [x >= y] is [not (x < y)], and [false] when that comparison is undefined. *)
Definition ge (x y : value) : bool :=
  match IsLessThan x y with
  | Some false => true
  | _ => false
  end.

Definition is_finite (v : value) : Prop := exists z, v = VNum (Fin z).

End JS.

Import JS.

(** ** The auction store ([auctionStore.js]) *)

(** One entry of [item.bidHistory]. *)
Record Bid : Type := mkBid {
  bid_id : string;          (* uuidv4() *)
  bid_bidderId : value;
  bid_amount : value;
  bid_timestamp : Z
}.

(** An element of [auctionItems].  [currentBid] and [highestBidderId] are
    assigned from [placeBid]'s arguments, so they hold whatever value the
    caller passed; the other fields are only ever written by
    [createSampleItems]. *)
Record AuctionItem : Type := mkItem {
  id : string;
  title : string;
  description : string;
  imageUrl : string;
  startingPrice : Z;
  currentBid : value;
  highestBidderId : value;
  auctionEndTime : Z;
  bidHistory : list Bid
}.

(** The object [getAllItems] builds for each item. *)
Record PublicView : Type := mkView {
  pv_id : string;
  pv_title : string;
  pv_description : string;
  pv_imageUrl : string;
  pv_startingPrice : Z;
  pv_currentBid : value;
  pv_highestBidderId : value;
  pv_auctionEndTime : Z
}.

(** The [item] object inside a successful [placeBid] result. *)
Record BidItemView : Type := mkBidView {
  bv_id : string;
  bv_title : string;
  bv_currentBid : value;
  bv_highestBidderId : value;
  bv_auctionEndTime : Z
}.

(** Own property names of the three object shapes, in the order of their
    object literals. *)
Definition AuctionItem_keys (_ : AuctionItem) : list string :=
  ["id"; "title"; "description"; "imageUrl"; "startingPrice"; "currentBid";
   "highestBidderId"; "auctionEndTime"; "bidHistory"].

Definition PublicView_keys (_ : PublicView) : list string :=
  ["id"; "title"; "description"; "imageUrl"; "startingPrice"; "currentBid";
   "highestBidderId"; "auctionEndTime"].

(** An [async-mutex] [Mutex], as one sequential caller sees it: free or
    held.  (Its waiter queue only matters to callers that overlap.) *)
Record Mutex : Type := mkMutex { locked : bool }.

#[global] Instance Mutex_eq_dec : EqDecision Mutex.
Proof. solve_decision. Defined.

(** The module state: [let auctionItems] and [const itemLocks = new Map()]. *)
Record store : Type := mkStore {
  auctionItems : list AuctionItem;
  itemLocks : gmap value Mutex
}.

Definition sampleItem (i t d u : string) (price : Z) (endTime : Z) : AuctionItem :=
  {| id := i; title := t; description := d; imageUrl := u;
     startingPrice := price; currentBid := VNum (Fin price);
     highestBidderId := VNull; auctionEndTime := endTime; bidHistory := [] |}.

(** [createSampleItems]; [now] is its [Date.now()] reading. *)
Definition createSampleItems (now : Z) : list AuctionItem :=
  [ sampleItem "item-001" "Vintage Mechanical Keyboard"
      "Cherry MX Blue switches, retro design" "/images/keyboard.jpg"
      50 (now + 5 * 60 * 1000);
    sampleItem "item-002" "Limited Edition Sneakers"
      "Size 10, never worn, original box" "/images/sneakers.jpg"
      120 (now + 8 * 60 * 1000);
    sampleItem "item-003" "Signed Guitar Pick Collection"
      "From various rock legends" "/images/guitar-picks.jpg"
      200 (now + 3 * 60 * 1000);
    sampleItem "item-004" "Rare Pokemon Card - Charizard"
      "First edition, mint condition" "/images/pokemon.jpg"
      500 (now + 10 * 60 * 1000);
    sampleItem "item-005" "Antique Pocket Watch"
      "1920s Swiss movement, gold plated" "/images/watch.jpg"
      300 (now + 6 * 60 * 1000);
    sampleItem "item-006" "Gaming Console Bundle"
      "Latest gen with 5 games included" "/images/console.jpg"
      400 (now + 4 * 60 * 1000) ].

(** The store right after the module is loaded at clock reading [now]. *)
Definition initialStore (now : Z) : store :=
  {| auctionItems := createSampleItems now; itemLocks := ∅ |}.

(** [resetItems]: reseed the items and [itemLocks.clear()]. *)
Definition resetItems (now : Z) (st : store) : store :=
  {| auctionItems := createSampleItems now; itemLocks := ∅ |}.

Definition publicView (item : AuctionItem) : PublicView :=
  {| pv_id := id item; pv_title := title item;
     pv_description := description item; pv_imageUrl := imageUrl item;
     pv_startingPrice := startingPrice item; pv_currentBid := currentBid item;
     pv_highestBidderId := highestBidderId item;
     pv_auctionEndTime := auctionEndTime item |}.

Definition getAllItems (st : store) : list PublicView :=
  map publicView (auctionItems st).

(** [auctionItems.find(pred)] with the position of the element found: the
    result of [find] is a reference into the array, and writes through it
    land at that position. *)
Definition findItem (itemId : value) (items : list AuctionItem)
  : option (nat * AuctionItem) :=
  list_find (fun i => strict_eq (VStr (id i)) itemId = true) items.

(** [getItemById] returns the array element itself ([None] is [undefined]). *)
Definition getItemById (itemId : value) (st : store) : option AuctionItem :=
  snd <$> findItem itemId (auctionItems st).

(** [getLockForItem]: get-or-create in [itemLocks]. *)
Definition getLockForItem (itemId : value) (st : store) : Mutex * store :=
  match itemLocks st !! itemId with
  | Some m => (m, st)
  | None =>
      let m := {| locked := false |} in
      (m, {| auctionItems := auctionItems st;
             itemLocks := <[itemId := m]> (itemLocks st) |})
  end.

(** [await lock.acquire()] on the gate of [itemId].  A held gate suspends the
    caller until a release; with nobody else running, that is no result. *)
Definition acquire (itemId : value) (lock : Mutex) (st : store) : option store :=
  if locked lock then None
  else Some {| auctionItems := auctionItems st;
               itemLocks := <[itemId := {| locked := true |}]> (itemLocks st) |}.

(** [release()], the call in [placeBid]'s [finally]. *)
Definition release (itemId : value) (st : store) : store :=
  {| auctionItems := auctionItems st;
     itemLocks := <[itemId := {| locked := false |}]> (itemLocks st) |}.

(** The state in which the critical section of a call on [itemId] starts. *)
Definition entered (itemId : value) (st : store) : store :=
  {| auctionItems := auctionItems st;
     itemLocks := <[itemId := {| locked := true |}]> (itemLocks st) |}.

(** The text of a result's [message]: a literal, or the template
    [`Bid must be higher than current: $${item.currentBid}`] kept as its
    literal part and the interpolated value. *)
Inductive message : Type :=
  | MsgLit (s : string)
  | MsgTemplate (s : string) (v : value).

(** What [placeBid] resolves to. *)
Inductive outcome : Type :=
  | ITEM_NOT_FOUND
  | AUCTION_ENDED
  | BID_TOO_LOW (currentBid : value)
  | ACCEPTED (item : BidItemView) (previousBidderId : value).

Definition success (o : outcome) : bool :=
  match o with
  | ACCEPTED _ _ => true
  | _ => false
  end.

Definition error (o : outcome) : value :=
  match o with
  | ITEM_NOT_FOUND => VStr "ITEM_NOT_FOUND"
  | AUCTION_ENDED => VStr "AUCTION_ENDED"
  | BID_TOO_LOW _ => VStr "BID_TOO_LOW"
  | ACCEPTED _ _ => VUndefined
  end.

Definition result_message (o : outcome) : message :=
  match o with
  | ITEM_NOT_FOUND => MsgLit "This item does not exist"
  | AUCTION_ENDED => MsgLit "Sorry, this auction has already ended"
  | BID_TOO_LOW c => MsgTemplate "Bid must be higher than current: $" c
  | ACCEPTED _ _ => MsgLit "Bid placed successfully!"
  end.

Definition result_currentBid (o : outcome) : value :=
  match o with
  | BID_TOO_LOW c => c
  | _ => VUndefined
  end.

(** The arguments of one [placeBid] call, with the readings its body would
    get from [Date.now()] and [uuidv4()]. *)
Record call : Type := mkCall {
  c_itemId : value;
  c_bidderId : value;
  c_bidAmount : value;
  c_now : Z;
  c_uuid : string
}.

(** The write of a successful bid to the found [item]. *)
Definition applyBid (c : call) (item : AuctionItem) : AuctionItem :=
  {| id := id item; title := title item; description := description item;
     imageUrl := imageUrl item; startingPrice := startingPrice item;
     currentBid := c_bidAmount c;
     highestBidderId := c_bidderId c;
     auctionEndTime := auctionEndTime item;
     bidHistory := bidHistory item ++
       [ {| bid_id := c_uuid c; bid_bidderId := c_bidderId c;
            bid_amount := c_bidAmount c; bid_timestamp := c_now c |} ] |}.

Definition bidItemView (item : AuctionItem) : BidItemView :=
  {| bv_id := id item; bv_title := title item;
     bv_currentBid := currentBid item;
     bv_highestBidderId := highestBidderId item;
     bv_auctionEndTime := auctionEndTime item |}.

(** The [try] block of [placeBid]: what runs between [acquire] and
    [release]. *)
Definition bidCriticalSection (c : call) (st : store) : outcome * store :=
  match findItem (c_itemId c) (auctionItems st) with
  | None => (ITEM_NOT_FOUND, st)
  | Some (k, item) =>
      let serverTime := c_now c in
      if JS.ge (VNum (Fin serverTime)) (VNum (Fin (auctionEndTime item)))
      then (AUCTION_ENDED, st)
      else if JS.le (c_bidAmount c) (currentBid item)
      then (BID_TOO_LOW (currentBid item), st)
      else
        let previousBidderId := highestBidderId item in
        let item' := applyBid c item in
        (ACCEPTED (bidItemView item') previousBidderId,
         {| auctionItems := <[k := item']> (auctionItems st);
            itemLocks := itemLocks st |})
  end.

(** [placeBid]: gate, critical section, [finally] release. *)
Definition placeBid (c : call) (st : store) : option (outcome * store) :=
  let '(lock, st0) := getLockForItem (c_itemId c) st in
  match acquire (c_itemId c) lock st0 with
  | None => None
  | Some st1 =>
      let '(result, st2) := bidCriticalSection c st1 in
      Some (result, release (c_itemId c) st2)
  end.

(** A run of consecutive [placeBid] calls, each awaited before the next is
    made, with the outcome of every call. *)
Fixpoint placeBids (cs : list call) (st : store) : option (list outcome * store) :=
  match cs with
  | [] => Some ([], st)
  | c :: cs' =>
      match placeBid c st with
      | None => None
      | Some (o, st') =>
          match placeBids cs' st' with
          | None => None
          | Some (os, st'') => Some (o :: os, st'')
          end
      end
  end.

(** The number a call adds to the accepted bids of the item named [i]. *)
Definition acceptedBy (i : string) (c : call) (o : outcome) : nat :=
  if success o && strict_eq (VStr i) (c_itemId c) then 1 else 0.


(** ** The socket handlers ([bidHandler.js]) *)

(** The [data] argument of a [BID_PLACED] event, as the destructuring
    [const { itemId, bidAmount, bidderId } = data] sees it: [undefined] and
    [null] make it throw a [TypeError]; from anything else it reads the
    three properties, a missing one as [undefined].  The properties are
    primitive values; a payload with an array or an object in one of these
    three places is not covered. *)
Inductive payload : Type :=
  | PUndefined
  | PNull
  | PObject (itemId bidAmount bidderId : value).

(** The three objects the handler passes to the client's callback. *)
Inductive reply : Type :=
  | ReplyInvalidData  (* { success: false, error: 'INVALID_DATA',
                           message: 'Missing required fields' } *)
  | ReplySuccess (msg : message) (item : BidItemView)
  | ReplyFailure (err : value) (msg : message) (currentBid : value).

(** The two [io.emit] broadcasts. *)
Inductive event : Type :=
  | UPDATE_BID (itemId : string)
      (currentBid highestBidderId previousBidderId : value) (serverTime : Z)
  | OUTBID (itemId : string) (outbidUserId newBid newBidderId : value).

(** One [BID_PLACED] event: its payload, whether
    [typeof callback === 'function'], and the readings of [Date.now()] (in
    [placeBid]), [uuidv4()] and [getServerTime()] (in the broadcast). *)
Record request : Type := mkRequest {
  r_data : payload;
  r_callback : bool;
  r_now : Z;
  r_uuid : string;
  r_serverTime : Z
}.

(** What handling one event did: callback invocations, broadcasts, the
    result of the [placeBid] call if one was made, and the store. *)
Record handled : Type := mkHandled {
  acks : list reply;
  emitted : list event;
  placed : option outcome;
  after : store
}.

Inductive completion : Type :=
  | Returned (h : handled)
  | ThrewTypeError
  | Suspended.

Definition ack (callback : bool) (r : reply) : list reply :=
  if callback then [r] else [].

(** The [BID_PLACED] listener.  Its three [console.log] calls are left
    out: each builds its text with a template literal over the payload
    fields or the result, a conversion that cannot fail on primitive
    values, and writes it to the console only. *)
Definition onBidPlaced (r : request) (st : store) : completion :=
  match r_data r with
  | PUndefined | PNull => ThrewTypeError
  | PObject itemId bidAmount bidderId =>
      if negb (ToBoolean itemId) || negb (ToBoolean bidAmount)
         || negb (ToBoolean bidderId)
      then Returned {| acks := ack (r_callback r) ReplyInvalidData;
                       emitted := []; placed := None; after := st |}
      else
        match placeBid {| c_itemId := itemId; c_bidderId := bidderId;
                          c_bidAmount := bidAmount; c_now := r_now r;
                          c_uuid := r_uuid r |} st with
        | None => Suspended
        | Some (result, st') =>
            match result with
            | ACCEPTED item previousBidderId =>
                Returned
                  {| acks := ack (r_callback r)
                               (ReplySuccess (result_message result) item);
                     emitted :=
                       UPDATE_BID (bv_id item) (bv_currentBid item)
                         (bv_highestBidderId item) previousBidderId
                         (r_serverTime r)
                       :: (if ToBoolean previousBidderId
                              && negb (strict_eq previousBidderId bidderId)
                           then [OUTBID (bv_id item) previousBidderId
                                   (bv_currentBid item) (bv_highestBidderId item)]
                           else []);
                     placed := Some result; after := st' |}
            | _ =>
                Returned
                  {| acks := ack (r_callback r)
                               (ReplyFailure (error result) (result_message result)
                                  (result_currentBid result));
                     emitted := []; placed := Some result; after := st' |}
            end
        end
  end.

(** The states the running server can be in: the store is only written by
    [BID_PLACED] events and by the [POST /api/reset] route. *)
Inductive serverReachable : store -> Prop :=
  | reach_init (now : Z) : serverReachable (initialStore now)
  | reach_bid (r : request) (h : handled) (st : store) :
      serverReachable st -> onBidPlaced r st = Returned h ->
      serverReachable (after h)
  | reach_reset (now : Z) (st : store) :
      serverReachable st -> serverReachable (resetItems now st).

(** ** The HTTP routes ([routes/items.js]) and runs of the bid handler *)

(** The JSON bodies the two read routes send. *)
Inductive routeBody : Type :=
  | ItemsBody (serverTime : Z) (items : list PublicView)
  | ItemBody (serverTime : Z) (item : AuctionItem)
  | ErrorBody (err : string).

Record response : Type := mkResponse {
  status : Z;
  body : routeBody
}.

(** [GET /api/items]. *)
Definition getItemsRoute (serverTime : Z) (st : store) : response :=
  {| status := 200; body := ItemsBody serverTime (getAllItems st) |}.

(** [GET /api/items/:id]; [req.params.id] is a string. *)
Definition getItemRoute (param : string) (serverTime : Z) (st : store) : response :=
  match getItemById (VStr param) st with
  | None => {| status := 404; body := ErrorBody "Item not found" |}
  | Some item => {| status := 200; body := ItemBody serverTime item |}
  end.

(** A run of [BID_PLACED] events, each handled to its end before the next
    arrives: what was sent to each callback, every broadcast in order, and
    the store at the end.  A listener that throws or stays suspended ends
    the run with no result. *)
Fixpoint serveBids (rs : list request) (st : store)
  : option (list (list reply) * list event * store) :=
  match rs with
  | [] => Some ([], [], st)
  | r :: rs' =>
      match onBidPlaced r st with
      | Returned h =>
          match serveBids rs' (after h) with
          | Some (replies, events, st') =>
              Some (acks h :: replies, (emitted h ++ events)%list, st')
          | None => None
          end
      | _ => None
      end
  end.

(** ** The client ([AuctionDashboard.jsx], [AuctionCard.jsx]) *)

Module Client.

(** [handleBidUpdate] of the dashboard, the listener of [UPDATE_BID]: the
    state update [prev => prev.map(...)] applied to the item list.  The
    dashboard does not listen to [OUTBID]. *)
Definition handleBidUpdate (e : event) (prev : list PublicView) : list PublicView :=
  match e with
  | UPDATE_BID itemId currentBid highestBidderId _ _ =>
      map (fun item =>
             if String.eqb (pv_id item) itemId
             then {| pv_id := pv_id item; pv_title := pv_title item;
                     pv_description := pv_description item;
                     pv_imageUrl := pv_imageUrl item;
                     pv_startingPrice := pv_startingPrice item;
                     pv_currentBid := currentBid;
                     pv_highestBidderId := highestBidderId;
                     pv_auctionEndTime := pv_auctionEndTime item |}
             else item) prev
  | OUTBID _ _ _ _ => prev
  end.

(** The item list after the listener ran for each broadcast in turn. *)
Definition applyBroadcasts (events : list event) (items : list PublicView)
  : list PublicView :=
  fold_left (fun prev e => handleBidUpdate e prev) events items.

(** [currentBid + 10] in [handlePlaceBid]: a string operand makes it a
    concatenation; any other operand is converted to a Number and the sum
    is the exact sum rounded to the nearest double.  (A double plus ten
    is below the overflow threshold, so the sum of a number is finite.) *)
Definition plusTen (currentBid : value) : value :=
  match currentBid with
  | VStr s => VStr (s ++ "10")
  | VUndefined | VNum NaN => VNum NaN
  | VNull => VNum (Fin 10)
  | VBool b => VNum (Fin (if b then 11 else 10))
  | VNum (Fin z) => VNum (Fin (JS.nearest (z + 10)))
  end.

(** The payload [handlePlaceBid] emits with [BID_PLACED] when the socket is
    connected; it always passes a callback. *)
Definition handlePlaceBid (itemId : string) (currentBid : value) (userId : string)
    (now : Z) (uuid : string) (serverTime : Z) : request :=
  {| r_data := PObject (VStr itemId) (plusTen currentBid) (VStr userId);
     r_callback := true; r_now := now; r_uuid := uuid;
     r_serverTime := serverTime |}.

Inductive flash : Type := FlashUp | FlashOutbid.

(** The state of one [AuctionCard] that its listeners write. *)
Record card : Type := mkCard {
  card_currentBid : value;
  card_highestBidderId : value;
  card_priceFlash : option flash
}.

(** [handleUpdate] of a card for the item [itemId] shown to [userId].  The
    leader it compares with is the one the card last rendered; the timer
    that clears the flash 600 ms later is left out. *)
Definition handleUpdate (itemId userId : string) (e : event) (c : card) : card :=
  match e with
  | UPDATE_BID dataItemId currentBid highestBidderId _ _ =>
      if negb (String.eqb dataItemId itemId) then c
      else
        let wasLeading := strict_eq (card_highestBidderId c) (VStr userId) in
        {| card_currentBid := currentBid;
           card_highestBidderId := highestBidderId;
           card_priceFlash :=
             if strict_eq highestBidderId (VStr userId) then Some FlashUp
             else if wasLeading then Some FlashOutbid
             else Some FlashUp |}
  | OUTBID _ _ _ _ => c
  end.

(** [handleOutbid] of the same card. *)
Definition handleOutbid (itemId userId : string) (e : event) (c : card) : card :=
  match e with
  | OUTBID dataItemId outbidUserId _ _ =>
      if String.eqb dataItemId itemId && strict_eq outbidUserId (VStr userId)
      then {| card_currentBid := card_currentBid c;
              card_highestBidderId := card_highestBidderId c;
              card_priceFlash := Some FlashOutbid |}
      else c
  | UPDATE_BID _ _ _ _ _ => c
  end.

(** Both listeners of a card, for one broadcast. *)
Definition cardOn (itemId userId : string) (e : event) (c : card) : card :=
  handleOutbid itemId userId e (handleUpdate itemId userId e c).

End Client.

(** ** The client's clock ([useServerTime.js], [CountdownTimer.jsx]) *)

Module Timer.

(** Client-side times are clock readings in whole milliseconds plus an
    offset that [syncTime] computes by halving a whole number; they are
    rationals here.  Sums, differences and the halving are exact on such
    numbers; a quotient by 1000, 100 or 60 is only ever used under
    [Math.floor], and for times below 2^40 ms rounding the quotient does
    not change its floor. *)

(** The callback of [syncTime]'s [GET_SERVER_TIME] request.  [clientTime]
    is the reading taken when the request was sent, [response] the
    [serverTime] of the reply ([None]: no reply object or no such
    property), [received] and [now] the two readings the callback takes.
    The result is the new [timeOffset]; [None] leaves the state alone. *)
Definition syncTime (clientTime : Z) (response : option Z) (received now : Z)
  : option Q :=
  match response with
  | None => None
  | Some serverTime =>
      if (serverTime =? 0)%Z then None
      else
        let roundTripTime := (received - clientTime)%Z in
        let estimatedServerTime :=
          (inject_Z serverTime + inject_Z roundTripTime / 2)%Q in
        Some (estimatedServerTime - inject_Z now)%Q
  end.

(** The hook's [getServerTime]. *)
Definition getServerTime (now : Z) (timeOffset : Q) : Q :=
  (inject_Z now + timeOffset)%Q.

(** [calculateTimeLeft] at clock reading [now]: the value for [setTimeLeft],
    the new [hasEndedRef.current], and whether [onEnd] was called. *)
Definition calculateTimeLeft (endTime : Z) (timeOffset : Q) (now : Z)
    (hasEnded : bool) : Q * bool * bool :=
  let serverNow := (inject_Z now + timeOffset)%Q in
  let remaining := (inject_Z endTime - serverNow)%Q in
  if Qle_bool remaining 0
  then (0%Q, true, negb hasEnded)
  else (remaining, hasEnded, false).

(** The first calculation and the interval's later ones, at the clock
    readings [nows]: for each, the [timeLeft] set and whether [onEnd] was
    called. *)
Fixpoint runTimer (endTime : Z) (timeOffset : Q) (nows : list Z)
    (hasEnded : bool) : list (Q * bool) :=
  match nows with
  | [] => []
  | now :: nows' =>
      let '(timeLeft, hasEnded', called) :=
        calculateTimeLeft endTime timeOffset now hasEnded in
      (timeLeft, called) :: runTimer endTime timeOffset nows' hasEnded'
  end.

(** [Math.trunc], which the [%] operator rounds its quotient with. *)
Definition Qtrunc (x : Q) : Z :=
  if Qle_bool 0 x then Qfloor x else Qceiling x.

(** [x % m] for a whole [m]. *)
Definition Qrem (x : Q) (m : Z) : Q :=
  (x - inject_Z m * inject_Z (Qtrunc (x / inject_Z m)))%Q.

(** What the timer shows: the placeholder, [ENDED], or minutes, seconds
    and tenths with the two urgency classes.  (The digits are then padded
    to two places; the text is not modelled.) *)
Inductive display : Type :=
  | Loading
  | Ended
  | Running (minutes seconds tenths : Z) (isUrgent isCritical : bool).

Definition render (timeLeft : option Q) : display :=
  match timeLeft with
  | None => Loading
  | Some timeLeft =>
      if Qle_bool timeLeft 0 then Ended
      else
        let totalSeconds := Qfloor (timeLeft / 1000) in
        let minutes := Qfloor (inject_Z totalSeconds / 60) in
        let seconds := Z.rem totalSeconds 60 in
        let tenths := Qfloor (Qrem timeLeft 1000 / 100) in
        Running minutes seconds tenths
          (totalSeconds <? 30)%Z (totalSeconds <? 10)%Z
  end.

End Timer.

(** ** Sample inputs *)

Definition aliceBids60 : call :=
  {| c_itemId := VStr "item-001"; c_bidderId := VStr "alice";
     c_bidAmount := VNum (Fin 60); c_now := 1000; c_uuid := "bid-1" |}.


Definition bobBids55 : call :=
  {| c_itemId := VStr "item-001"; c_bidderId := VStr "bob";
     c_bidAmount := VNum (Fin 55); c_now := 2000; c_uuid := "bid-2" |}.

Definition bobBids70 : call :=
  {| c_itemId := VStr "item-001"; c_bidderId := VStr "bob";
     c_bidAmount := VNum (Fin 70); c_now := 3000; c_uuid := "bid-3" |}.

Definition lowBid40 : call :=
  {| c_itemId := VStr "item-001"; c_bidderId := VStr "bob";
     c_bidAmount := VNum (Fin 40); c_now := 2000; c_uuid := "bid-2" |}.

(** An amount sent as text with a fraction. *)
Definition fractionBid : call :=
  {| c_itemId := VStr "item-001"; c_bidderId := VStr "bob";
     c_bidAmount := VStr "40.5"; c_now := 2000; c_uuid := "bid-2" |}.

Definition ghostBid : call :=
  {| c_itemId := VStr "no-such-item"; c_bidderId := VStr "alice";
     c_bidAmount := VNum (Fin 60); c_now := 1000; c_uuid := "bid-1" |}.

Definition nanBid : call :=
  {| c_itemId := VStr "item-001"; c_bidderId := VStr "mallory";
     c_bidAmount := VNum NaN; c_now := 1000; c_uuid := "bid-1" |}.

Definition oneDollarBid : call :=
  {| c_itemId := VStr "item-001"; c_bidderId := VStr "mallory";
     c_bidAmount := VNum (Fin 1); c_now := 2000; c_uuid := "bid-2" |}.

(** [socket.emit('BID_PLACED', { itemId: 'item-001', bidAmount: 'abc',
    bidderId: 'mallory' }, callback)]. *)
Definition textAmountRequest : request :=
  {| r_data := PObject (VStr "item-001") (VStr "abc") (VStr "mallory");
     r_callback := true; r_now := 1000; r_uuid := "bid-1";
     r_serverTime := 1001 |}.

(** A bid of 0 sent without an acknowledgement callback. *)
Definition zeroAmountNoCallback : request :=
  {| r_data := PObject (VStr "item-001") (VNum (Fin 0)) (VStr "alice");
     r_callback := false; r_now := 1000; r_uuid := "bid-1";
     r_serverTime := 1001 |}.

Definition zeroAmountRequest : request :=
  {| r_data := PObject (VStr "item-001") (VNum (Fin 0)) (VStr "alice");
     r_callback := true; r_now := 1000; r_uuid := "bid-1";
     r_serverTime := 1001 |}.

Definition aliceRequest60 : request :=
  {| r_data := PObject (VStr "item-001") (VNum (Fin 60)) (VStr "alice");
     r_callback := true; r_now := 1000; r_uuid := "bid-1";
     r_serverTime := 1001 |}.

Definition bobRequest70 : request :=
  {| r_data := PObject (VStr "item-001") (VNum (Fin 70)) (VStr "bob");
     r_callback := true; r_now := 3000; r_uuid := "bid-3";
     r_serverTime := 3001 |}.

Definition keyboard (now : Z) : AuctionItem :=
  sampleItem "item-001" "Vintage Mechanical Keyboard"
    "Cherry MX Blue switches, retro design" "/images/keyboard.jpg"
    50 (now + 5 * 60 * 1000).

(** ** Predicates used in the statements *)

(** No gate is held: the state between two calls. *)
Definition gatesFree (st : store) : Prop :=
  forall k m, itemLocks st !! k = Some m -> locked m = false.

Definition gateHeld (itemId : value) (st : store) : Prop :=
  itemLocks st !! itemId = Some {| locked := true |}.

(** [item] is the element [auctionItems.find(i => i.id === itemId)] yields:
    the first one, at position [k], whose [id] is [itemId]. *)
Definition foundAt (itemId : value) (items : list AuctionItem)
    (k : nat) (item : AuctionItem) : Prop :=
  items !! k = Some item /\ VStr (id item) = itemId /\
  forall j other, items !! j = Some other -> (j < k)%nat ->
    VStr (id other) <> itemId.

Definition noItem (itemId : value) (items : list AuctionItem) : Prop :=
  Forall (fun item => VStr (id item) <> itemId) items.

Definition rejected (o : outcome) : Prop :=
  match o with
  | ACCEPTED _ _ => False
  | _ => True
  end.

(** A call whose bidder is a token and whose amount is an ordinary number. *)
Definition ordinaryCall (c : call) : Prop :=
  c_bidderId c <> VNull /\ JS.is_finite (c_bidAmount c).

(** An item between bids: the price is a number; with no bid recorded it is
    the starting price and nobody leads, otherwise it is above the starting
    price and somebody leads. *)
Definition itemOK (item : AuctionItem) : Prop :=
  exists z, currentBid item = VNum (Fin z) /\
    match bidHistory item with
    | [] => z = startingPrice item /\ highestBidderId item = VNull
    | _ :: _ => (startingPrice item < z)%Z /\ highestBidderId item <> VNull
    end.

Definition storeOK (st : store) : Prop :=
  gatesFree st /\ Forall itemOK (auctionItems st) /\
  NoDup (map id (auctionItems st)).

(** A leader the socket handler can have stored: none yet, or a truthy
    bidder id. *)
Definition leaderOK (item : AuctionItem) : Prop :=
  highestBidderId item = VNull \/ ToBoolean (highestBidderId item) = true.

(** The call the handler makes for a well-formed request. *)
Definition callOf (itemId bidAmount bidderId : value) (r : request) : call :=
  {| c_itemId := itemId; c_bidderId := bidderId; c_bidAmount := bidAmount;
     c_now := r_now r; c_uuid := r_uuid r |}.

(** How one call may change one item: the price does not go down, and
    either price, leader and history are all as before, or the price went
    up and the history is the old one followed by one record of the new
    price and leader. *)
Definition itemStep (item item' : AuctionItem) : Prop :=
  exists z z', currentBid item = VNum (Fin z) /\
    currentBid item' = VNum (Fin z') /\ (z <= z')%Z /\
    ((currentBid item' = currentBid item /\
      highestBidderId item' = highestBidderId item /\
      bidHistory item' = bidHistory item)
     \/
     ((z < z')%Z /\
      exists b, bidHistory item' = (bidHistory item ++ [b])%list /\
                bid_amount b = currentBid item' /\
                bid_bidderId b = highestBidderId item')).

(** The number an amount is, when it is one. *)
Definition amountOf (v : value) : option Z :=
  match v with
  | VNum (Fin z) => Some z
  | _ => None
  end.

(** The numeric amounts, in call order, of the calls of a run that name the
    item [i] and read the clock before [deadline]. *)
Definition bidsInTime (i : string) (deadline : Z) (cs : list call) : list Z :=
  omap (fun c => if strict_eq (VStr i) (c_itemId c) && (c_now c <? deadline)%Z
                 then amountOf (c_bidAmount c) else None) cs.

(** The auction of the item a call names is over when the call reads the
    clock. *)
Definition afterDeadline (items : list AuctionItem) (c : call) : Prop :=
  forall k item, foundAt (c_itemId c) items k item ->
    (auctionEndTime item <= c_now c)%Z.

(** What [createSampleItems] fixes of an item once and for all. *)
Definition catalogue (item : AuctionItem) : string * string * string * string * Z :=
  (id item, title item, description item, imageUrl item, startingPrice item).

(** The ids of the seeded items. *)
Definition sampleIds : list string :=
  ["item-001"; "item-002"; "item-003"; "item-004"; "item-005"; "item-006"].

(** A request that carries a payload object. *)
Definition hasPayload (r : request) : Prop :=
  exists itemId bidAmount bidderId, r_data r = PObject itemId bidAmount bidderId.

(** * Properties *)

(** Case split on the two checks [placeBid] makes on a found item: deadline
    passed, amount too low (equation [Hle]), or neither. *)
Ltac case_checks c item :=
  destruct (auctionEndTime item <=? c_now c)%Z;
  [|destruct (JS.le (c_bidAmount c) (currentBid item)) eqn:Hle].

(** ** Comparison and lookup facts *)

Lemma strict_eq_VStr (s : string) (v : value) :
  strict_eq (VStr s) v = true <-> VStr s = v.
Proof.
  unfold strict_eq.
  destruct v as [| | b | [|z] | t]; rewrite ?bool_decide_eq_true; split; congruence.
Qed.

Lemma Qle_bool_inject_Z (a b : Z) :
  Qle_bool (inject_Z a) (inject_Z b) = (a <=? b)%Z.
Proof. unfold Qle_bool, inject_Z; simpl. now rewrite !Z.mul_1_r. Qed.

Lemma IsLessThan_Fin (a b : Z) :
  JS.IsLessThan (VNum (Fin a)) (VNum (Fin b)) = Some (a <? b)%Z.
Proof.
  unfold JS.IsLessThan, JS.ToNumber, JS.double_lt.
  rewrite Qle_bool_inject_Z, Z.leb_antisym. now rewrite negb_involutive.
Qed.

Lemma ge_Fin (a b : Z) : JS.ge (VNum (Fin a)) (VNum (Fin b)) = (b <=? a)%Z.
Proof.
  unfold JS.ge. rewrite IsLessThan_Fin.
  destruct (Z.ltb_spec a b), (Z.leb_spec b a); auto; lia.
Qed.

Lemma le_Fin (a b : Z) : JS.le (VNum (Fin a)) (VNum (Fin b)) = (a <=? b)%Z.
Proof.
  unfold JS.le. rewrite IsLessThan_Fin.
  destruct (Z.ltb_spec b a), (Z.leb_spec a b); auto; lia.
Qed.

Lemma findItem_Some itemId items k item :
  findItem itemId items = Some (k, item) <-> foundAt itemId items k item.
Proof.
  unfold findItem, foundAt. rewrite list_find_Some.
  rewrite strict_eq_VStr. split; intros (H1 & H2 & H3); repeat split; auto.
  - intros j other Hj Hlt. rewrite <- strict_eq_VStr. eauto.
  - intros j other Hj Hlt. rewrite strict_eq_VStr. eauto.
Qed.

Lemma findItem_None itemId items :
  findItem itemId items = None <-> noItem itemId items.
Proof.
  unfold findItem, noItem. rewrite list_find_None.
  apply Forall_proper; [|reflexivity]. intros item. now rewrite strict_eq_VStr.
Qed.

Lemma foundAt_unique itemId items k item k' item' :
  foundAt itemId items k item -> foundAt itemId items k' item' ->
  k = k' /\ item = item'.
Proof.
  intros H H'. rewrite <- findItem_Some in H, H'. split; congruence.
Qed.

Lemma foundAt_noItem itemId items k item :
  foundAt itemId items k item -> noItem itemId items -> False.
Proof.
  intros H H'. rewrite <- findItem_Some in H. rewrite <- findItem_None in H'.
  congruence.
Qed.

(** ** The gate discipline of [placeBid] *)

(** The critical section reads and writes [auctionItems] only. *)
Lemma bidCriticalSection_locks c items L :
  bidCriticalSection c {| auctionItems := items; itemLocks := L |} =
  (fst (bidCriticalSection c {| auctionItems := items; itemLocks := ∅ |}),
   {| auctionItems :=
        auctionItems (snd (bidCriticalSection c {| auctionItems := items; itemLocks := ∅ |}));
      itemLocks := L |}).
Proof.
  unfold bidCriticalSection; simpl.
  destruct (findItem (c_itemId c) items) as [[k item]|]; [|reflexivity].
  destruct (JS.ge _ _); [reflexivity|].
  destruct (JS.le _ _); reflexivity.
Qed.

Lemma enter_free itemId st :
  gatesFree st ->
  acquire itemId (fst (getLockForItem itemId st)) (snd (getLockForItem itemId st))
  = Some (entered itemId st).
Proof.
  intros Hfree. unfold getLockForItem, entered.
  destruct (itemLocks st !! itemId) as [m|] eqn:E; simpl; unfold acquire.
  - rewrite (Hfree _ _ E). reflexivity.
  - simpl. now rewrite insert_insert_eq.
Qed.

Lemma placeBid_free c st :
  gatesFree st ->
  placeBid c st =
  Some (fst (bidCriticalSection c (entered (c_itemId c) st)),
        release (c_itemId c) (snd (bidCriticalSection c (entered (c_itemId c) st)))).
Proof.
  intros Hfree. unfold placeBid.
  pose proof (enter_free (c_itemId c) st Hfree) as E.
  destruct (getLockForItem (c_itemId c) st) as [lock st0]; simpl in E.
  rewrite E. now destruct (bidCriticalSection c (entered (c_itemId c) st)).
Qed.

Lemma gatesFree_release itemId items st :
  gatesFree st ->
  gatesFree {| auctionItems := items;
               itemLocks := <[itemId := {| locked := false |}]> (itemLocks st) |}.
Proof.
  intros Hfree k m; simpl. rewrite lookup_insert.
  destruct (decide (itemId = k)); [intros [= <-]; reflexivity | apply Hfree].
Qed.

(** A call suspends exactly when the gate of its own [itemId] is held;
    the gates of other ids play no part. *)
Lemma placeBid_suspends_iff c st :
  placeBid c st = None <->
  exists m, itemLocks st !! c_itemId c = Some m /\ locked m = true.
Proof.
  unfold placeBid, getLockForItem, acquire.
  destruct (itemLocks st !! c_itemId c) as [m|] eqn:E; simpl.
  - destruct (locked m) eqn:Hm.
    + split; [eauto | reflexivity].
    + destruct (bidCriticalSection c _). split; [discriminate|].
      intros (m' & [= <-] & Hm'). congruence.
  - destruct (bidCriticalSection c _). split; [discriminate|].
    intros (m' & [=] & _).
Qed.

(** The seeded store and the store after a reset are the same store. *)
Lemma resetItems_initial now st : resetItems now st = initialStore now.
Proof. reflexivity. Qed.

Lemma gatesFree_initial now : gatesFree (initialStore now).
Proof. intros k m; simpl. now rewrite lookup_empty. Qed.

(** A call made while no gate is held returns, with the outcome and items
    its critical section computes and all gates free again. *)
Lemma placeBid_returns c st :
  gatesFree st ->
  exists o items',
    bidCriticalSection c (entered (c_itemId c) st) =
      (o, {| auctionItems := items'; itemLocks := itemLocks (entered (c_itemId c) st) |}) /\
    placeBid c st =
      Some (o, {| auctionItems := items';
                  itemLocks := <[c_itemId c := {| locked := false |}]> (itemLocks st) |}).
Proof.
  intros Hfree. rewrite (placeBid_free c st Hfree).
  unfold entered. rewrite bidCriticalSection_locks. simpl.
  eexists _, _. split; [reflexivity|].
  unfold release; simpl. now rewrite insert_insert_eq.
Qed.

(** ** The bid evaluator *)

Lemma bidCriticalSection_not_found c st :
  noItem (c_itemId c) (auctionItems st) ->
  bidCriticalSection c st = (ITEM_NOT_FOUND, st).
Proof.
  intros H. apply findItem_None in H. unfold bidCriticalSection. now rewrite H.
Qed.

Lemma bidCriticalSection_found c st k item :
  foundAt (c_itemId c) (auctionItems st) k item ->
  bidCriticalSection c st =
  if (auctionEndTime item <=? c_now c)%Z then (AUCTION_ENDED, st)
  else if JS.le (c_bidAmount c) (currentBid item)
  then (BID_TOO_LOW (currentBid item), st)
  else (ACCEPTED (bidItemView (applyBid c item)) (highestBidderId item),
        {| auctionItems := <[k := applyBid c item]> (auctionItems st);
           itemLocks := itemLocks st |}).
Proof.
  intros H. apply findItem_Some in H. unfold bidCriticalSection.
  rewrite H, ge_Fin. reflexivity.
Qed.

(** The outcome and the items after a call made with all gates free. *)
Lemma placeBid_not_found c st :
  gatesFree st -> noItem (c_itemId c) (auctionItems st) ->
  exists st', placeBid c st = Some (ITEM_NOT_FOUND, st') /\
              auctionItems st' = auctionItems st /\ gatesFree st'.
Proof.
  intros Hfree Hno.
  destruct (placeBid_returns c st Hfree) as (o & items' & Hcs & Hp).
  rewrite bidCriticalSection_not_found in Hcs by exact Hno.
  injection Hcs as <- <-. eauto using gatesFree_release.
Qed.

Lemma placeBid_found c st k item :
  gatesFree st -> foundAt (c_itemId c) (auctionItems st) k item ->
  exists o st', placeBid c st = Some (o, st') /\ gatesFree st' /\
    (o, auctionItems st') =
    if (auctionEndTime item <=? c_now c)%Z then (AUCTION_ENDED, auctionItems st)
    else if JS.le (c_bidAmount c) (currentBid item)
    then (BID_TOO_LOW (currentBid item), auctionItems st)
    else (ACCEPTED (bidItemView (applyBid c item)) (highestBidderId item),
          <[k := applyBid c item]> (auctionItems st)).
Proof.
  intros Hfree Hfound.
  destruct (placeBid_returns c st Hfree) as (o & items' & Hcs & Hp).
  rewrite (bidCriticalSection_found c _ k item) in Hcs by exact Hfound.
  eexists _, _. split; [exact Hp|]. split; [now apply gatesFree_release|]. simpl.
  case_checks c item; injection Hcs as <- <-; reflexivity.
Qed.

(** What [amount <= currentBid] comes to on a numeric price: for a numeric
    amount the order of the integers, for a text amount the order of the
    number the text converts to ([NaN] is below nothing). *)
Lemma le_Fin_iff (a p : Z) :
  JS.le (VNum (Fin a)) (VNum (Fin p)) = true <-> (a <= p)%Z.
Proof. rewrite le_Fin. apply Z.leb_le. Qed.

Lemma le_VStr_Fin (s : string) (p : Z) :
  JS.le (VStr s) (VNum (Fin p)) = true <->
  match JS.StringToNumber s with
  | DNaN => False
  | DInf negative => negative = true
  | DFin q => (q <= inject_Z p)%Q
  end.
Proof.
  unfold JS.le, JS.IsLessThan, JS.ToNumber, JS.double_lt.
  destruct (JS.StringToNumber s) as [|[|]|q]; try (split; [discriminate|tauto]);
    try (split; reflexivity).
  rewrite <- Qle_bool_iff. destruct (Qle_bool q (inject_Z p)); simpl;
    split; auto; discriminate.
Qed.

(** Text amounts are read as the language reads them. *)
Lemma StringToNumber_samples :
  JS.StringToNumber "40.5" = DFin (81 # 2) /\
  JS.StringToNumber " 1e1 " = DFin 10 /\
  JS.StringToNumber "0x10" = DFin 16 /\
  JS.StringToNumber "-Infinity" = DInf true /\
  JS.StringToNumber "" = DFin 0 /\
  JS.StringToNumber "abc" = DNaN /\
  JS.StringToNumber "12px" = DNaN /\
  JS.StringToNumber "9007199254740993" = DFin 9007199254740992.
Proof. vm_compute. repeat split. Qed.

(** C1: the checks of [placeBid] run in the order item lookup, deadline,
    amount, and the first one that fails decides the outcome: no item with
    that id gives ITEM_NOT_FOUND; else a clock reading at or past the
    item's [auctionEndTime] gives AUCTION_ENDED; else [amount <= currentBid]
    gives BID_TOO_LOW; else the bid is ACCEPTED, the result carries the
    leader from before the write, and the item found gets [currentBid =
    amount], [highestBidderId = bidderId] and one more [Bid] record (the
    generated id, the bidder, the amount, the clock reading of the deadline
    check) at the end of [bidHistory].  Here [<=] is the operator of the
    language: on a numeric price, a numeric amount is too low exactly when
    it is at most the price, and a text amount exactly when the number it
    converts to is. *)
Theorem placeBid_check_order (c : call) (st : store) :
  gatesFree st ->
  exists o st', placeBid c st = Some (o, st') /\
    (noItem (c_itemId c) (auctionItems st) -> o = ITEM_NOT_FOUND) /\
    (forall k item, foundAt (c_itemId c) (auctionItems st) k item ->
       ((auctionEndTime item <= c_now c)%Z -> o = AUCTION_ENDED) /\
       ((c_now c < auctionEndTime item)%Z ->
        JS.le (c_bidAmount c) (currentBid item) = true ->
        o = BID_TOO_LOW (currentBid item)) /\
       ((c_now c < auctionEndTime item)%Z ->
        JS.le (c_bidAmount c) (currentBid item) = false ->
        exists item',
          o = ACCEPTED (bidItemView item') (highestBidderId item) /\
          auctionItems st' = <[k := item']> (auctionItems st) /\
          currentBid item' = c_bidAmount c /\
          highestBidderId item' = c_bidderId c /\
          bidHistory item' =
            (bidHistory item ++
             [ {| bid_id := c_uuid c; bid_bidderId := c_bidderId c;
                  bid_amount := c_bidAmount c; bid_timestamp := c_now c |} ])%list /\
          id item' = id item /\ title item' = title item /\
          description item' = description item /\
          imageUrl item' = imageUrl item /\
          startingPrice item' = startingPrice item /\
          auctionEndTime item' = auctionEndTime item) /\
       ((c_now c < auctionEndTime item)%Z ->
        forall p, currentBid item = VNum (Fin p) ->
          (forall a, c_bidAmount c = VNum (Fin a) ->
             (o = BID_TOO_LOW (VNum (Fin p)) <-> (a <= p)%Z)) /\
          (forall s, c_bidAmount c = VStr s ->
             (o = BID_TOO_LOW (VNum (Fin p)) <->
              match JS.StringToNumber s with
              | DNaN => False
              | DInf negative => negative = true
              | DFin q => (q <= inject_Z p)%Q
              end)))).
Proof.
  intros Hfree.
  destruct (findItem (c_itemId c) (auctionItems st)) as [[k item]|] eqn:E.
  - apply findItem_Some in E.
    destruct (placeBid_found c st k item Hfree E) as (o & st' & Hp & _ & Hres).
    exists o, st'. split; [exact Hp|]. split.
    + intros Hno. destruct (foundAt_noItem _ _ _ _ E Hno).
    + intros k' item' E'. destruct (foundAt_unique _ _ _ _ _ _ E E') as [<- <-].
      split; [|split; [|split]].
      * intros Hend. apply Z.leb_le in Hend. rewrite Hend in Hres. congruence.
      * intros Hopen Hlow. apply Z.leb_gt in Hopen.
        rewrite Hopen, Hlow in Hres. congruence.
      * intros Hopen Hhigh. apply Z.leb_gt in Hopen.
        rewrite Hopen, Hhigh in Hres. injection Hres as -> ->.
        exists (applyBid c item). repeat split.
      * intros Hopen p Hprice. apply Z.leb_gt in Hopen. rewrite Hopen in Hres.
        assert (Hlow : o = BID_TOO_LOW (VNum (Fin p)) <->
                       JS.le (c_bidAmount c) (currentBid item) = true).
        { destruct (JS.le (c_bidAmount c) (currentBid item));
            injection Hres as -> _; rewrite ?Hprice;
            split; congruence. }
        split.
        -- intros a Ha. rewrite Hlow, Ha, Hprice. apply le_Fin_iff.
        -- intros s Hs. rewrite Hlow, Hs, Hprice. apply le_VStr_Fin.
  - apply findItem_None in E.
    destruct (placeBid_not_found c st Hfree E) as (st' & Hp & _ & _).
    exists ITEM_NOT_FOUND, st'. split; [exact Hp|]. split; [reflexivity|].
    intros k item Hfound. destruct (foundAt_noItem _ _ _ _ Hfound E).
Qed.

(** C2: a call that ends in ITEM_NOT_FOUND, AUCTION_ENDED or BID_TOO_LOW
    leaves [auctionItems] exactly as it was (no field of any item changes,
    no [Bid] record is added, so every view of the items is the same), and
    the value a BID_TOO_LOW result carries is the [currentBid] of the item
    found. *)
Theorem rejected_bid_no_mutation (c : call) (st : store) :
  gatesFree st ->
  exists o st', placeBid c st = Some (o, st') /\
    (rejected o ->
       auctionItems st' = auctionItems st /\
       getAllItems st' = getAllItems st /\
       forall i, getItemById i st' = getItemById i st) /\
    (forall low, o = BID_TOO_LOW low ->
       exists k item, foundAt (c_itemId c) (auctionItems st) k item /\
                      low = currentBid item).
Proof.
  intros Hfree.
  assert (Hsame : forall st', auctionItems st' = auctionItems st ->
            auctionItems st' = auctionItems st /\
            getAllItems st' = getAllItems st /\
            forall i, getItemById i st' = getItemById i st).
  { intros st' E. unfold getAllItems, getItemById. now rewrite E. }
  destruct (findItem (c_itemId c) (auctionItems st)) as [[k item]|] eqn:E.
  - apply findItem_Some in E.
    destruct (placeBid_found c st k item Hfree E) as (o & st' & Hp & _ & Hres).
    exists o, st'. split; [exact Hp|].
    case_checks c item;
      injection Hres as -> Hitems; (split; [intros Hrej|intros low [=]]).
    + auto.
    + auto.
    + subst low. eauto.
    + destruct Hrej.
  - apply findItem_None in E.
    destruct (placeBid_not_found c st Hfree E) as (st' & Hp & Hitems & _).
    exists ITEM_NOT_FOUND, st'. split; [exact Hp|]. split; [auto|].
    intros low [=].
Qed.

Lemma foundAt_keyboard now :
  foundAt (VStr "item-001") (createSampleItems now) 0 (keyboard now).
Proof. apply findItem_Some. reflexivity. Defined.

Lemma placeBid_check_order_witness :
  gatesFree (initialStore 0) /\
  (exists o st', placeBid aliceBids60 (initialStore 0) = Some (o, st') /\
     exists item', o = ACCEPTED (bidItemView item') VNull /\
                   currentBid item' = VNum (Fin 60) /\
                   highestBidderId item' = VStr "alice") /\
  (exists st', placeBid lowBid40 (initialStore 0)
                 = Some (BID_TOO_LOW (VNum (Fin 50)), st')) /\
  (exists st', placeBid fractionBid (initialStore 0)
                 = Some (BID_TOO_LOW (VNum (Fin 50)), st')).
Proof.
  split; [apply gatesFree_initial|]. split; [|split].
  - destruct (placeBid_check_order aliceBids60 (initialStore 0) (gatesFree_initial 0))
      as (o & st' & Hp & _ & Hfound).
    destruct (Hfound 0%nat (keyboard 0) (foundAt_keyboard 0)) as (_ & _ & Hacc & _).
    destruct Hacc as (item' & Ho & _ & Hcur & Hhigh & _); [reflexivity..|].
    exists o, st'. split; [exact Hp|]. exists item'. auto.
  - destruct (placeBid_check_order lowBid40 (initialStore 0) (gatesFree_initial 0))
      as (o & st' & Hp & _ & Hfound).
    destruct (Hfound 0%nat (keyboard 0) (foundAt_keyboard 0)) as (_ & _ & _ & Hnum).
    destruct (Hnum eq_refl 50%Z eq_refl) as [Hlow _].
    exists st'. rewrite Hp. do 2 f_equal. apply (Hlow 40%Z eq_refl). discriminate.
  - destruct (placeBid_check_order fractionBid (initialStore 0) (gatesFree_initial 0))
      as (o & st' & Hp & _ & Hfound).
    destruct (Hfound 0%nat (keyboard 0) (foundAt_keyboard 0)) as (_ & _ & _ & Hnum).
    destruct (Hnum eq_refl 50%Z eq_refl) as [_ Htext].
    exists st'. rewrite Hp. do 2 f_equal. apply (Htext "40.5" eq_refl).
    vm_compute. discriminate.
Defined.

Lemma rejected_bid_no_mutation_witness :
  gatesFree (initialStore 0) /\
  exists st', placeBid lowBid40 (initialStore 0) =
                Some (BID_TOO_LOW (VNum (Fin 50)), st') /\
              auctionItems st' = auctionItems (initialStore 0).
Proof.
  split; [apply gatesFree_initial|].
  destruct (rejected_bid_no_mutation lowBid40 (initialStore 0) (gatesFree_initial 0))
    as (o & st' & Hp & Hrej & _).
  assert (Ho : fst <$> placeBid lowBid40 (initialStore 0)
               = Some (BID_TOO_LOW (VNum (Fin 50)))) by reflexivity.
  rewrite Hp in Ho. injection Ho as ->.
  exists st'. split; [exact Hp|]. now apply Hrej.
Defined.

(** ** Invariants of the items over runs of bids *)

Lemma itemStep_refl item z : currentBid item = VNum (Fin z) -> itemStep item item.
Proof. intros H. exists z, z. repeat split; auto; lia. Qed.

Lemma applyBid_OK c item :
  itemOK item -> ordinaryCall c ->
  JS.le (c_bidAmount c) (currentBid item) = false ->
  itemOK (applyBid c item) /\ itemStep item (applyBid c item).
Proof.
  intros (z & Hz & Hh) (Hbidder & a & Ha) Hle.
  rewrite Hz, Ha, le_Fin in Hle. apply Z.leb_gt in Hle.
  assert (startingPrice item <= z)%Z by (destruct (bidHistory item), Hh; lia).
  split.
  - exists a. split; [exact Ha|]. simpl.
    destruct (bidHistory item); simpl; split; auto; lia.
  - exists z, a. repeat split; auto; try lia. right. split; [lia|].
    eexists. simpl. split; [reflexivity|]. auto.
Qed.

Lemma other_item_not_named items k item j other :
  NoDup (map id items) -> items !! k = Some item -> items !! j = Some other ->
  j <> k -> strict_eq (VStr (id other)) (VStr (id item)) = false.
Proof.
  intros Hnd Hk Hj Hne. apply not_true_is_false. rewrite strict_eq_VStr.
  intros [= E]. apply Hne.
  eapply (NoDup_lookup _ j k (id other) Hnd).
  - now rewrite list_lookup_fmap, Hj.
  - now rewrite list_lookup_fmap, Hk, E.
Qed.

(** One ordinary call from a good store: it returns, the store stays good,
    and each item moves by [itemStep], gaining a [Bid] record exactly when
    the call was accepted for it. *)
Lemma placeBid_preserves c st :
  storeOK st -> ordinaryCall c ->
  exists o st', placeBid c st = Some (o, st') /\ storeOK st' /\
    length (auctionItems st') = length (auctionItems st) /\
    forall k item, auctionItems st !! k = Some item ->
      exists item', auctionItems st' !! k = Some item' /\
        id item' = id item /\ startingPrice item' = startingPrice item /\
        itemStep item item' /\
        length (bidHistory item') =
          (length (bidHistory item) + acceptedBy (id item) c o)%nat.
Proof.
  intros (Hfree & Hok & Hnd) Hc.
  assert (Hsame : forall o st', success o = false ->
            auctionItems st' = auctionItems st -> gatesFree st' ->
            storeOK st' /\
            length (auctionItems st') = length (auctionItems st) /\
            forall k item, auctionItems st !! k = Some item ->
              exists item', auctionItems st' !! k = Some item' /\
                id item' = id item /\ startingPrice item' = startingPrice item /\
                itemStep item item' /\
                length (bidHistory item') =
                  (length (bidHistory item) + acceptedBy (id item) c o)%nat).
  { intros o st' Ho E Hfree'. split; [|split].
    - unfold storeOK. rewrite E. auto.
    - now rewrite E.
    - intros k item Hk. exists item. rewrite E. repeat split; auto.
      + rewrite Forall_lookup in Hok. destruct (Hok k item Hk) as (z & Hz & _).
        eapply itemStep_refl, Hz.
      + unfold acceptedBy. rewrite Ho. simpl. lia. }
  destruct (findItem (c_itemId c) (auctionItems st)) as [[k0 item0]|] eqn:E.
  - apply findItem_Some in E.
    destruct (placeBid_found c st k0 item0 Hfree E) as (o & st' & Hp & Hfree' & Hres).
    exists o, st'. split; [exact Hp|].
    case_checks c item0;
      injection Hres as -> Hitems; try (apply Hsame; auto; fail).
    destruct E as (Hk0 & Hid0 & _).
    assert (Hok0 : itemOK item0) by (rewrite Forall_lookup in Hok; eauto).
    destruct (applyBid_OK c item0 Hok0 Hc Hle) as (Hok' & Hstep').
    split; [|split].
    + repeat split; auto.
      * rewrite Hitems. apply Forall_insert; auto.
      * rewrite Hitems, list_fmap_insert. simpl.
        rewrite list_insert_id; auto. now rewrite list_lookup_fmap, Hk0.
    + now rewrite Hitems, length_insert.
    + intros k item Hk. rewrite Hitems. destruct (decide (k = k0)) as [->|Hne].
      * assert (item = item0) as -> by congruence.
        exists (applyBid c item0).
        rewrite list_lookup_insert_eq by (eapply lookup_lt_Some; eauto).
        repeat split; auto.
        unfold acceptedBy. rewrite <- Hid0.
        replace (strict_eq (VStr (id item0)) (VStr (id item0))) with true
          by (symmetry; now apply strict_eq_VStr).
        simpl. rewrite length_app. simpl. lia.
      * exists item. rewrite list_lookup_insert_ne by auto.
        repeat split; auto.
        -- rewrite Forall_lookup in Hok. destruct (Hok k item Hk) as (z & Hz & _).
           eapply itemStep_refl, Hz.
        -- unfold acceptedBy. rewrite <- Hid0.
           rewrite (other_item_not_named _ k0 item0 k item Hnd Hk0 Hk Hne).
           rewrite andb_false_r. lia.
  - apply findItem_None in E.
    destruct (placeBid_not_found c st Hfree E) as (st' & Hp & Hitems & Hfree').
    exists ITEM_NOT_FOUND, st'. split; [exact Hp|]. apply Hsame; auto.
Qed.


Lemma storeOK_initial now : storeOK (initialStore now).
Proof.
  repeat split.
  - apply gatesFree_initial.
  - simpl. unfold createSampleItems, sampleItem.
    repeat (apply Forall_cons_2; [eexists; simpl; eauto|]). apply Forall_nil_2.
  - simpl. apply (bool_decide_unpack _). vm_compute. reflexivity.
Qed.





(** ** Amounts that are not numbers *)

(** C5: the code does not reject [NaN] or non-numeric amounts.  On the
    seeded store, [placeBid('item-001', 'mallory', NaN)] is ACCEPTED and
    [NaN] becomes the item's [currentBid]; and the socket request
    [{ itemId: 'item-001', bidAmount: 'abc', bidderId: 'mallory' }] passes
    the handler's checks, is ACCEPTED, and is broadcast with the text as the
    new price. *)
Theorem non_numeric_amount_accepted :
  (exists st item,
     placeBid nanBid (initialStore 0) =
       Some (ACCEPTED {| bv_id := "item-001";
                         bv_title := "Vintage Mechanical Keyboard";
                         bv_currentBid := VNum NaN;
                         bv_highestBidderId := VStr "mallory";
                         bv_auctionEndTime := 300000 |} VNull, st) /\
     getItemById (VStr "item-001") st = Some item /\
     currentBid item = VNum NaN /\
     length (bidHistory item) = 1%nat) /\
  (exists h item,
     onBidPlaced textAmountRequest (initialStore 0) = Returned h /\
     emitted h = [UPDATE_BID "item-001" (VStr "abc") (VStr "mallory") VNull 1001] /\
     getItemById (VStr "item-001") (after h) = Some item /\
     currentBid item = VStr "abc").
Proof.
  split.
  - destruct (placeBid nanBid (initialStore 0)) as [[o st]|] eqn:E;
      vm_compute in E; [|discriminate].
    injection E as <- <-. eexists _, _. repeat split; reflexivity.
  - destruct (onBidPlaced textAmountRequest (initialStore 0)) as [h| |] eqn:E;
      vm_compute in E; try discriminate.
    injection E as <-. eexists _, _. repeat split; reflexivity.
Qed.

(** Once [currentBid] is not a number every later amount passes the
    [<=] check, so the price can go down: after the [NaN] bid a bid of 1 is
    accepted on an item that started at 50. *)
Lemma price_drops_after_NaN :
  exists os st item,
    placeBids [nanBid; oneDollarBid] (initialStore 0) = Some (os, st) /\
    Forall (fun o => success o = true) os /\
    getItemById (VStr "item-001") st = Some item /\
    startingPrice item = 50 /\ currentBid item = VNum (Fin 1).
Proof.
  destruct (placeBids [nanBid; oneDollarBid] (initialStore 0)) as [[os st]|] eqn:E;
    vm_compute in E; [|discriminate].
  injection E as <- <-. eexists _, _, _.
  split; [reflexivity|]. split; [repeat constructor|]. repeat split; reflexivity.
Qed.

(** Numeric amounts at or below the current price, and so every amount that
    is not positive while the price is not negative, are turned down with
    BID_TOO_LOW and change nothing. *)
Lemma low_amount_rejected c st k item a z :
  gatesFree st -> foundAt (c_itemId c) (auctionItems st) k item ->
  (c_now c < auctionEndTime item)%Z ->
  c_bidAmount c = VNum (Fin a) -> currentBid item = VNum (Fin z) ->
  (a <= z)%Z ->
  exists st', placeBid c st = Some (BID_TOO_LOW (VNum (Fin z)), st') /\
              auctionItems st' = auctionItems st.
Proof.
  intros Hfree Hfound Hopen Ha Hz Hle.
  destruct (placeBid_found c st k item Hfree Hfound) as (o & st' & Hp & _ & Hres).
  apply Z.leb_gt in Hopen. rewrite Hopen, Ha, Hz, le_Fin in Hres.
  apply Z.leb_le in Hle. rewrite Hle in Hres. injection Hres as -> Hitems.
  eauto.
Qed.

(** ** Views of the items *)

(** [getAllItems] yields, in store order, one object per item with exactly
    the eight public properties, copied from the item. *)
Lemma getAllItems_public_view st :
  length (getAllItems st) = length (auctionItems st) /\
  forall k view, getAllItems st !! k = Some view ->
    PublicView_keys view =
      ["id"; "title"; "description"; "imageUrl"; "startingPrice";
       "currentBid"; "highestBidderId"; "auctionEndTime"] /\
    ~ In "bidHistory" (PublicView_keys view) /\
    exists item, auctionItems st !! k = Some item /\ view = publicView item.
Proof.
  unfold getAllItems. split; [apply length_map|].
  intros k view Hk. split; [reflexivity|]. split.
  - simpl. intros H. repeat (destruct H as [H|H]; [discriminate H|]). exact H.
  - rewrite list_lookup_fmap in Hk.
    destruct (auctionItems st !! k) as [item|]; [|discriminate].
    injection Hk as <-. eauto.
Qed.

(** C6: [getItemById] does not return the public view.  It returns the
    element of [auctionItems] itself, whose properties include
    [bidHistory]: on the seeded store after alice's bid of 60, the object
    returned for ['item-001'] carries the [Bid] record of that bid. *)
Theorem getItemById_exposes_bidHistory :
  exists os st item,
    placeBids [aliceBids60] (initialStore 0) = Some (os, st) /\
    getItemById (VStr "item-001") st = Some item /\
    auctionItems st !! 0%nat = Some item /\
    In "bidHistory" (AuctionItem_keys item) /\
    bidHistory item =
      [ {| bid_id := "bid-1"; bid_bidderId := VStr "alice";
           bid_amount := VNum (Fin 60); bid_timestamp := 1000 |} ].
Proof.
  destruct (placeBids [aliceBids60] (initialStore 0)) as [[os st]|] eqn:E;
    vm_compute in E; [|discriminate].
  injection E as <- <-. eexists _, _, _.
  split; [reflexivity|]. split; [reflexivity|]. split; [reflexivity|].
  split; [|reflexivity]. simpl. tauto.
Qed.

(** What [getItemById] returns is always the stored element. *)
Lemma getItemById_stored itemId st item :
  getItemById itemId st = Some item <->
  exists k, foundAt itemId (auctionItems st) k item.
Proof.
  unfold getItemById. split.
  - destruct (findItem itemId (auctionItems st)) as [[k found]|] eqn:E;
      [|discriminate]. simpl. intros [= <-]. exists k. now apply findItem_Some.
  - intros [k H]. apply findItem_Some in H. now rewrite H.
Qed.

(** ** Reset *)

(** C7: after [resetItems] at clock reading [now], whatever the store held
    before, every item has [currentBid = startingPrice], [highestBidderId =
    null], an empty [bidHistory], and an [auctionEndTime] later than [now]:
    the deadlines are [now] plus 5, 8, 3, 10, 6 and 4 minutes. *)
Theorem resetItems_fresh (now : Z) (st : store) :
  Forall (fun item =>
            currentBid item = VNum (Fin (startingPrice item)) /\
            highestBidderId item = VNull /\
            bidHistory item = [] /\
            (now < auctionEndTime item)%Z)
         (auctionItems (resetItems now st)) /\
  map auctionEndTime (auctionItems (resetItems now st)) =
    map (fun minutes => now + minutes * 60 * 1000)%Z [5; 8; 3; 10; 6; 4]%Z /\
  itemLocks (resetItems now st) = ∅.
Proof.
  split; [|split; reflexivity].
  simpl. unfold createSampleItems, sampleItem.
  repeat (apply Forall_cons_2; [simpl; repeat split; lia|]). apply Forall_nil_2.
Qed.

(** ** The socket handler *)

Lemma strict_eq_truthy (x y : value) :
  ToBoolean x = true -> (strict_eq x y = true <-> x = y).
Proof.
  unfold strict_eq.
  destruct x as [| | b | [|z] | s]; simpl; try discriminate; intros _;
    destruct y as [| | b' | [|z'] | s']; rewrite ?bool_decide_eq_true;
    split; congruence.
Qed.

Lemma onBidPlaced_invalid itemId bidAmount bidderId cb now uuid t st :
  ToBoolean itemId = false \/ ToBoolean bidAmount = false \/
  ToBoolean bidderId = false ->
  onBidPlaced {| r_data := PObject itemId bidAmount bidderId; r_callback := cb;
                 r_now := now; r_uuid := uuid; r_serverTime := t |} st =
  Returned {| acks := if cb then [ReplyInvalidData] else [];
              emitted := []; placed := None; after := st |}.
Proof.
  intros H. unfold onBidPlaced; simpl.
  replace (negb (ToBoolean itemId) || negb (ToBoolean bidAmount)
           || negb (ToBoolean bidderId)) with true; [reflexivity|].
  destruct H as [-> | [-> | ->]]; simpl; now rewrite ?orb_true_r.
Qed.

(** What handling a request did, when the handler ran to its end. *)
Lemma onBidPlaced_cases r st h :
  onBidPlaced r st = Returned h ->
  exists itemId bidAmount bidderId,
    r_data r = PObject itemId bidAmount bidderId /\
    ((ToBoolean itemId && ToBoolean bidAmount && ToBoolean bidderId = false /\
      placed h = None /\ emitted h = [] /\ after h = st)
     \/
     (ToBoolean itemId = true /\ ToBoolean bidAmount = true /\
      ToBoolean bidderId = true /\
      exists o,
        placeBid (callOf itemId bidAmount bidderId r) st = Some (o, after h) /\
        placed h = Some o /\
        emitted h =
          match o with
          | ACCEPTED item previousBidderId =>
              UPDATE_BID (bv_id item) (bv_currentBid item)
                (bv_highestBidderId item) previousBidderId (r_serverTime r)
              :: (if ToBoolean previousBidderId
                     && negb (strict_eq previousBidderId bidderId)
                  then [OUTBID (bv_id item) previousBidderId
                          (bv_currentBid item) (bv_highestBidderId item)]
                  else [])
          | _ => []
          end)).
Proof.
  unfold onBidPlaced, callOf.
  destruct (r_data r) as [| |itemId bidAmount bidderId]; try discriminate.
  intros H. exists itemId, bidAmount, bidderId. split; [reflexivity|].
  destruct (ToBoolean itemId), (ToBoolean bidAmount), (ToBoolean bidderId);
    simpl in H; try (injection H as <-; left; repeat split; reflexivity).
  right. repeat (split; [reflexivity|]).
  destruct (placeBid _ st) as [[o st']|]; [|discriminate].
  exists o. destruct o; injection H as <-; repeat split; reflexivity.
Qed.

Lemma placeBid_accepted c st view prev st' :
  gatesFree st -> placeBid c st = Some (ACCEPTED view prev, st') ->
  exists k item, foundAt (c_itemId c) (auctionItems st) k item /\
    view = bidItemView (applyBid c item) /\ prev = highestBidderId item /\
    auctionItems st' = <[k := applyBid c item]> (auctionItems st).
Proof.
  intros Hfree Hp.
  destruct (findItem (c_itemId c) (auctionItems st)) as [[k item]|] eqn:E.
  - apply findItem_Some in E.
    destruct (placeBid_found c st k item Hfree E) as (o & st1 & Hp1 & _ & Hres).
    rewrite Hp in Hp1. injection Hp1 as <- <-. exists k, item.
    case_checks c item; try discriminate Hres.
    injection Hres as -> -> Hitems. auto.
  - apply findItem_None in E.
    destruct (placeBid_not_found c st Hfree E) as (st1 & Hp1 & _).
    rewrite Hp in Hp1. discriminate.
Qed.

Lemma placeBid_gatesFree c st o st' :
  gatesFree st -> placeBid c st = Some (o, st') -> gatesFree st'.
Proof.
  intros Hfree Hp.
  destruct (placeBid_returns c st Hfree) as (o1 & items' & _ & Hp1).
  rewrite Hp in Hp1. injection Hp1 as -> ->. now apply gatesFree_release.
Qed.

Lemma rejected_items_same c st o st' :
  gatesFree st -> placeBid c st = Some (o, st') -> rejected o ->
  auctionItems st' = auctionItems st.
Proof.
  intros Hfree Hp Hrej.
  destruct (findItem (c_itemId c) (auctionItems st)) as [[k item]|] eqn:E.
  - apply findItem_Some in E.
    destruct (placeBid_found c st k item Hfree E) as (o1 & st1 & Hp1 & _ & Hres).
    rewrite Hp in Hp1. injection Hp1 as <- <-.
    case_checks c item; injection Hres as -> Hitems; auto. destruct Hrej.
  - apply findItem_None in E.
    destruct (placeBid_not_found c st Hfree E) as (st1 & Hp1 & Hitems & _).
    rewrite Hp in Hp1. injection Hp1 as _ ->. exact Hitems.
Qed.

Lemma placeBid_leaders c st o st' :
  gatesFree st -> Forall leaderOK (auctionItems st) ->
  ToBoolean (c_bidderId c) = true ->
  placeBid c st = Some (o, st') -> Forall leaderOK (auctionItems st').
Proof.
  intros Hfree Hok Hbidder Hp.
  destruct o as [| | low | view prev].
  4: { destruct (placeBid_accepted c st view prev st' Hfree Hp)
         as (k & item & _ & _ & _ & ->).
       apply Forall_insert; [exact Hok|]. right. exact Hbidder. }
  all: rewrite (rejected_items_same c st _ st' Hfree Hp I); exact Hok.
Qed.

(** Every state of the running server has all gates free and, as leader of
    each item, nobody or a truthy bidder id. *)
Lemma serverReachable_ok st :
  serverReachable st -> gatesFree st /\ Forall leaderOK (auctionItems st).
Proof.
  induction 1 as [now | r h st Hreach [Hfree Hok] Hh | now st Hreach _].
  - split; [apply gatesFree_initial|].
    simpl. unfold createSampleItems, sampleItem.
    repeat (apply Forall_cons_2; [left; reflexivity|]). apply Forall_nil_2.
  - destruct (onBidPlaced_cases r st h Hh) as (i & a & b & _ & [Hbad | Hgood]).
    + destruct Hbad as (_ & _ & _ & ->). auto.
    + destruct Hgood as (_ & _ & Hb & o & Hp & _). split.
      * exact (placeBid_gatesFree _ st o (after h) Hfree Hp).
      * exact (placeBid_leaders (callOf i a b r) st o (after h) Hfree Hok Hb Hp).
  - split; [apply (gatesFree_initial now)|].
    simpl. unfold createSampleItems, sampleItem.
    repeat (apply Forall_cons_2; [left; reflexivity|]). apply Forall_nil_2.
Qed.

(** C8: in every state of the running server, handling a [BID_PLACED]
    request emits events that are fixed by the result of its [placeBid]
    call: for an ACCEPTED result, one UPDATE_BID with the item's id, the new
    [currentBid] and [highestBidderId] (those now stored for the item), the
    previous leader and the server time, followed by one OUTBID (item id,
    the previous leader as [outbidUserId], the new bid, the new bidder)
    exactly when the previous leader is not [null] and is not the new
    leader; for a rejected bid, and when [placeBid] is not called at all,
    nothing. *)
Theorem bid_fanout (st : store) (r : request) (h : handled) :
  serverReachable st -> onBidPlaced r st = Returned h ->
  match placed h with
  | Some (ACCEPTED item previousBidderId) =>
      emitted h =
        UPDATE_BID (bv_id item) (bv_currentBid item) (bv_highestBidderId item)
          previousBidderId (r_serverTime r)
        :: (if decide (previousBidderId <> VNull /\
                       previousBidderId <> bv_highestBidderId item)
            then [OUTBID (bv_id item) previousBidderId (bv_currentBid item)
                    (bv_highestBidderId item)]
            else []) /\
      exists k stored,
        auctionItems (after h) !! k = Some stored /\
        VStr (bv_id item) = VStr (id stored) /\
        bv_currentBid item = currentBid stored /\
        bv_highestBidderId item = highestBidderId stored
  | _ => emitted h = []
  end.
Proof.
  intros Hreach Hh. destruct (serverReachable_ok st Hreach) as [Hfree Hok].
  destruct (onBidPlaced_cases r st h Hh) as (i & a & b & _ & [Hbad | Hgood]).
  - destruct Hbad as (_ & -> & -> & _). reflexivity.
  - destruct Hgood as (_ & _ & Hb & o & Hp & -> & ->).
    destruct o as [| | low | view prev]; try reflexivity.
    destruct (placeBid_accepted _ st view prev (after h) Hfree Hp)
      as (k & item & (Hk & _ & _) & -> & -> & Hitems).
    split.
    + f_equal. simpl.
      rewrite Forall_lookup in Hok. destruct (Hok k item Hk) as [Hnull | Htruthy].
      * rewrite Hnull. reflexivity.
      * rewrite Htruthy. simpl.
        assert (Hnn : highestBidderId item <> VNull).
        { intros E. rewrite E in Htruthy. discriminate. }
        destruct (strict_eq (highestBidderId item) b) eqn:Eq; simpl.
        -- apply strict_eq_truthy in Eq; [|exact Htruthy].
           case_decide as Hd; [destruct Hd as [_ Hne]; simpl in Hne; congruence|].
           reflexivity.
        -- case_decide as Hn; [reflexivity|].
           exfalso. apply Hn. split; [exact Hnn|]. intros E.
           apply (strict_eq_truthy _ _ Htruthy) in E. congruence.
    + exists k, (applyBid (callOf i a b r) item). rewrite Hitems.
      rewrite list_lookup_insert_eq by (eapply lookup_lt_Some; eauto).
      repeat split; reflexivity.
Qed.

Lemma bid_fanout_witness :
  exists h1 h2,
    onBidPlaced aliceRequest60 (initialStore 0) = Returned h1 /\
    serverReachable (after h1) /\
    onBidPlaced bobRequest70 (after h1) = Returned h2 /\
    emitted h2 =
      [ UPDATE_BID "item-001" (VNum (Fin 70)) (VStr "bob") (VStr "alice") 3001;
        OUTBID "item-001" (VStr "alice") (VNum (Fin 70)) (VStr "bob") ].
Proof.
  destruct (onBidPlaced aliceRequest60 (initialStore 0)) as [h1| |] eqn:E1;
    try (vm_compute in E1; discriminate).
  pose proof E1 as Hh1. vm_compute in Hh1. injection Hh1 as Hh1.
  destruct (onBidPlaced bobRequest70 (after h1)) as [h2| |] eqn:E2;
    try (rewrite <- Hh1 in E2; vm_compute in E2; discriminate).
  pose proof (reach_bid _ _ _ (reach_init 0) E1) as Hreach.
  pose proof (bid_fanout (after h1) bobRequest70 h2 Hreach E2) as H.
  exists h1, h2. split; [reflexivity|]. split; [exact Hreach|].
  split; [exact E2|].
  rewrite <- Hh1 in E2. vm_compute in E2. injection E2 as E2.
  rewrite <- E2 in H |- *. vm_compute in H. destruct H as [H _].
  vm_compute. exact H.
Defined.

(** C10, as amended: a [BID_PLACED] request whose payload is an object in
    which [itemId], [bidAmount] or [bidderId] is missing or falsy (a
    [bidAmount] of exactly 0 included) is answered with [{ success: false,
    error: 'INVALID_DATA', ... }] through its acknowledgement callback when
    it has one, and not answered when it has none; in both cases [placeBid]
    is not called, nothing is broadcast and the store is unchanged. *)
Theorem invalid_request_rejected
    (itemId bidAmount bidderId : value) (cb : bool) (now : Z) (uuid : string)
    (t : Z) (st : store) :
  ToBoolean itemId = false \/ ToBoolean bidAmount = false \/
  ToBoolean bidderId = false ->
  onBidPlaced {| r_data := PObject itemId bidAmount bidderId; r_callback := cb;
                 r_now := now; r_uuid := uuid; r_serverTime := t |} st =
  Returned {| acks := if cb then [ReplyInvalidData] else [];
              emitted := []; placed := None; after := st |}.
Proof. apply onBidPlaced_invalid. Qed.

Lemma invalid_request_rejected_witness :
  (ToBoolean (VStr "item-001") = false \/ ToBoolean (VNum (Fin 0)) = false \/
   ToBoolean (VStr "alice") = false) /\
  onBidPlaced zeroAmountRequest (initialStore 0) =
  Returned {| acks := [ReplyInvalidData]; emitted := []; placed := None;
              after := initialStore 0 |}.
Proof.
  split; [right; left; reflexivity|].
  apply (invalid_request_rejected (VStr "item-001") (VNum (Fin 0)) (VStr "alice")
           true 1000 "bid-1" 1001 (initialStore 0)).
  right; left; reflexivity.
Defined.

(** C10 as stated fails: the handler only answers through the callback, so
    a bid of 0 sent without one gets no answer at all. *)
Lemma unanswered_request_counterexample :
  ToBoolean (VNum (Fin 0)) = false /\
  exists h, onBidPlaced zeroAmountNoCallback (initialStore 0) = Returned h /\
    acks h = [] /\ ~ In ReplyInvalidData (acks h).
Proof.
  split; [reflexivity|]. eexists. split; [reflexivity|].
  split; [reflexivity|]. intros [].
Qed.

(** A request with no payload object is not answered either: destructuring
    [undefined] or [null] throws before the checks. *)
Lemma missing_payload_throws cb now uuid t st :
  onBidPlaced {| r_data := PUndefined; r_callback := cb; r_now := now;
                 r_uuid := uuid; r_serverTime := t |} st = ThrewTypeError /\
  onBidPlaced {| r_data := PNull; r_callback := cb; r_now := now;
                 r_uuid := uuid; r_serverTime := t |} st = ThrewTypeError.
Proof. split; reflexivity. Qed.

(** ** The gate map *)

Lemma placeBids_gates cs : forall st,
  gatesFree st ->
  exists os st', placeBids cs st = Some (os, st') /\ gatesFree st' /\
    dom (itemLocks st') = dom (itemLocks st) ∪ list_to_set (map c_itemId cs).
Proof.
  induction cs as [|c cs IH]; intros st Hfree.
  - exists [], st. split; [reflexivity|]. split; [assumption|]. set_solver.
  - destruct (placeBid_returns c st Hfree) as (o & items' & _ & Hp).
    destruct (IH _ (gatesFree_release (c_itemId c) items' st Hfree))
      as (os & st' & Hps & Hfree' & Hdom).
    exists (o :: os), st'. simpl. rewrite Hp, Hps.
    split; [reflexivity|]. split; [assumption|].
    rewrite Hdom. simpl. rewrite dom_insert_L. set_solver.
Qed.

(** C9, as amended: a [placeBid] call made with no gate held gets the gate
    of its [itemId] from the map, creating it if absent, and acquires it
    before anything else; the lookup of the item and the whole decision,
    ITEM_NOT_FOUND included, happen with that gate held and [auctionItems]
    as the caller left it; the gate is then released.  The map ends with an
    entry for the [itemId], whether or not an item has that id, next to the
    entries it had, and no later [placeBid] call removes it.  (The entry is
    not permanent: [resetItems] clears the map.) *)
Theorem placeBid_takes_gate (c : call) (st : store) (cs : list call) :
  gatesFree st ->
  exists lock st0 st1 o st2 st',
    getLockForItem (c_itemId c) st = (lock, st0) /\
    itemLocks st0 !! c_itemId c = Some lock /\
    acquire (c_itemId c) lock st0 = Some st1 /\
    gateHeld (c_itemId c) st1 /\ auctionItems st1 = auctionItems st /\
    bidCriticalSection c st1 = (o, st2) /\
    gateHeld (c_itemId c) st2 /\
    (noItem (c_itemId c) (auctionItems st) -> o = ITEM_NOT_FOUND) /\
    placeBid c st = Some (o, st') /\ st' = release (c_itemId c) st2 /\
    itemLocks st' !! c_itemId c = Some {| locked := false |} /\
    dom (itemLocks st') = {[c_itemId c]} ∪ dom (itemLocks st) /\
    exists os st'', placeBids cs st' = Some (os, st'') /\
                    c_itemId c ∈ dom (itemLocks st'').
Proof.
  intros Hfree.
  pose proof (enter_free (c_itemId c) st Hfree) as Henter.
  pose proof (placeBid_free c st Hfree) as Hp.
  destruct (getLockForItem (c_itemId c) st) as [lock st0] eqn:Hget.
  simpl in Henter.
  destruct (bidCriticalSection c (entered (c_itemId c) st)) as [o st2] eqn:Hcs.
  simpl in Hp.
  assert (Hlocks2 : itemLocks st2 = itemLocks (entered (c_itemId c) st)).
  { unfold entered in Hcs. rewrite bidCriticalSection_locks in Hcs.
    now injection Hcs as _ <-. }
  assert (Hfree' : gatesFree (release (c_itemId c) st2)).
  { unfold release. rewrite Hlocks2. unfold entered; simpl.
    rewrite insert_insert_eq. now apply gatesFree_release. }
  exists lock, st0, (entered (c_itemId c) st), o, st2, (release (c_itemId c) st2).
  split; [reflexivity|]. split.
  { unfold getLockForItem in Hget.
    destruct (itemLocks st !! c_itemId c) as [m|] eqn:E; injection Hget as <- <-.
    - exact E.
    - simpl. apply lookup_insert_eq. }
  split; [exact Henter|].
  split; [apply lookup_insert_eq|]. split; [reflexivity|].
  split; [exact Hcs|].
  split; [unfold gateHeld; rewrite Hlocks2; apply lookup_insert_eq|].
  split.
  { intros Hno. rewrite bidCriticalSection_not_found in Hcs by exact Hno.
    congruence. }
  split; [exact Hp|]. split; [reflexivity|].
  split; [apply lookup_insert_eq|].
  split.
  { unfold release; simpl. rewrite Hlocks2. unfold entered; simpl.
    rewrite !dom_insert_L. set_solver. }
  destruct (placeBids_gates cs _ Hfree') as (os & st'' & Hps & _ & Hdom).
  exists os, st''. split; [exact Hps|].
  rewrite Hdom. unfold release; simpl. rewrite dom_insert_L. set_solver.
Qed.

Lemma placeBid_takes_gate_witness :
  gatesFree (initialStore 0) /\
  exists o st',
    placeBid ghostBid (initialStore 0) = Some (o, st') /\
    dom (itemLocks st') = {[VStr "no-such-item"]} ∪ dom (itemLocks (initialStore 0)) /\
    exists os st'', placeBids [aliceBids60; bobBids70] st' = Some (os, st'') /\
                    VStr "no-such-item" ∈ dom (itemLocks st'').
Proof.
  split; [apply gatesFree_initial|].
  destruct (placeBid_takes_gate ghostBid (initialStore 0) [aliceBids60; bobBids70]
              (gatesFree_initial 0))
    as (lock & st0 & st1 & o & st2 & st' & _ & _ & _ & _ & _ & _ & _ & _
        & Hp & _ & _ & Hdom & Hlater).
  exists o, st'. auto.
Defined.

(** C9 as stated fails: the entry is not permanent.  A call for an id that
    names no item leaves a gate in the map, and the next [resetItems]
    removes it with all the others. *)
Lemma gate_cleared_by_reset_counterexample :
  exists st',
    placeBid ghostBid (initialStore 0) = Some (ITEM_NOT_FOUND, st') /\
    itemLocks st' !! VStr "no-such-item" = Some {| locked := false |} /\
    itemLocks (resetItems 5000 st') !! VStr "no-such-item" = None.
Proof.
  destruct (placeBid_not_found ghostBid (initialStore 0) (gatesFree_initial 0))
    as (st' & Hp & _).
  { apply findItem_None. reflexivity. }
  exists st'. split; [exact Hp|]. split; [|apply lookup_empty].
  destruct (placeBid_returns ghostBid (initialStore 0) (gatesFree_initial 0))
    as (o & items' & _ & Hp').
  rewrite Hp in Hp'. injection Hp' as _ ->. apply lookup_insert_eq.
Qed.

(** * Further properties of the store, the routes and the client *)

(** ** What one call can do to the items *)

(** A call made with all gates free either rejects and leaves the items as
    they were, or is accepted for the item found, before its deadline and
    with an amount that is not [<=] its price, and overwrites that item. *)
Lemma placeBid_step c st :
  gatesFree st ->
  exists o st', placeBid c st = Some (o, st') /\ gatesFree st' /\
    ((rejected o /\ auctionItems st' = auctionItems st) \/
     (exists k item,
        foundAt (c_itemId c) (auctionItems st) k item /\
        (c_now c < auctionEndTime item)%Z /\
        JS.le (c_bidAmount c) (currentBid item) = false /\
        o = ACCEPTED (bidItemView (applyBid c item)) (highestBidderId item) /\
        auctionItems st' = <[k := applyBid c item]> (auctionItems st))).
Proof.
  intros Hfree.
  destruct (findItem (c_itemId c) (auctionItems st)) as [[k item]|] eqn:E.
  - apply findItem_Some in E.
    destruct (placeBid_found c st k item Hfree E) as (o & st' & Hp & Hfree' & Hres).
    exists o, st'. split; [exact Hp|]. split; [exact Hfree'|].
    destruct (auctionEndTime item <=? c_now c)%Z eqn:Hend;
      [|destruct (JS.le (c_bidAmount c) (currentBid item)) eqn:Hlow];
      injection Hres as -> Hitems.
    + left. split; [exact I | exact Hitems].
    + left. split; [exact I | exact Hitems].
    + right. exists k, item. apply Z.leb_gt in Hend. auto 10.
  - apply findItem_None in E.
    destruct (placeBid_not_found c st Hfree E) as (st' & Hp & Hitems & Hfree').
    exists ITEM_NOT_FOUND, st'. split; [exact Hp|]. split; [exact Hfree'|].
    left. split; [exact I | exact Hitems].
Qed.

Lemma placeBid_step_of c st o st' :
  gatesFree st -> placeBid c st = Some (o, st') ->
  gatesFree st' /\
  ((rejected o /\ auctionItems st' = auctionItems st) \/
   (exists k item,
      foundAt (c_itemId c) (auctionItems st) k item /\
      (c_now c < auctionEndTime item)%Z /\
      JS.le (c_bidAmount c) (currentBid item) = false /\
      o = ACCEPTED (bidItemView (applyBid c item)) (highestBidderId item) /\
      auctionItems st' = <[k := applyBid c item]> (auctionItems st))).
Proof.
  intros Hfree Hp.
  destruct (placeBid_step c st Hfree) as (o1 & st1 & Hp1 & H).
  rewrite Hp in Hp1. injection Hp1 as <- <-. exact H.
Qed.

(** X1: whatever its arguments, a [placeBid] call keeps the number and
    order of the items and, of every item, the [id], [title],
    [description], [imageUrl], [startingPrice] and [auctionEndTime]; an
    item whose id is not the call's [itemId] is not touched at all; no
    item changes unless the call is accepted; and each [bidHistory] keeps
    its records and gains at most one at the end. *)
Theorem placeBid_frame (c : call) (st : store) :
  gatesFree st ->
  exists o st', placeBid c st = Some (o, st') /\
    length (auctionItems st') = length (auctionItems st) /\
    (success o = false -> auctionItems st' = auctionItems st) /\
    forall k item, auctionItems st !! k = Some item ->
      exists item', auctionItems st' !! k = Some item' /\
        id item' = id item /\ title item' = title item /\
        description item' = description item /\
        imageUrl item' = imageUrl item /\
        startingPrice item' = startingPrice item /\
        auctionEndTime item' = auctionEndTime item /\
        (VStr (id item) <> c_itemId c -> item' = item) /\
        (bidHistory item' = bidHistory item \/
         exists b, bidHistory item' = (bidHistory item ++ [b])%list).
Proof.
  intros Hfree.
  destruct (placeBid_step c st Hfree) as (o & st' & Hp & _ & [[Hrej E] | Hacc]).
  - exists o, st'. split; [exact Hp|]. rewrite E.
    split; [reflexivity|]. split; [reflexivity|].
    intros k item Hk. exists item. auto 12.
  - destruct Hacc as (k0 & item0 & (Hk0 & Hid0 & _) & _ & _ & -> & E).
    eexists _, st'. split; [exact Hp|]. rewrite E.
    split; [apply length_insert|]. split; [discriminate|].
    intros k item Hk. destruct (decide (k = k0)) as [->|Hne].
    + assert (item = item0) as -> by congruence.
      exists (applyBid c item0).
      rewrite list_lookup_insert_eq by (eapply lookup_lt_Some; eauto).
      repeat split; try reflexivity.
      * intros Hother. destruct (Hother Hid0).
      * right. eexists. reflexivity.
    + exists item. rewrite list_lookup_insert_ne by auto. auto 12.
Qed.

Lemma placeBid_frame_witness :
  gatesFree (initialStore 0) /\
  exists o st', placeBid nanBid (initialStore 0) = Some (o, st') /\
    length (auctionItems st') = 6%nat /\
    auctionItems st' !! 1%nat = auctionItems (initialStore 0) !! 1%nat.
Proof.
  split; [apply gatesFree_initial|].
  destruct (placeBid_frame nanBid (initialStore 0) (gatesFree_initial 0))
    as (o & st' & Hp & Hlen & _ & Hitems).
  exists o, st'. split; [exact Hp|]. split; [exact Hlen|].
  destruct (Hitems 1%nat _ eq_refl) as (item' & Hk & _ & _ & _ & _ & _ & _ & Hsame & _).
  rewrite Hk, Hsame by discriminate. reflexivity.
Defined.

(** ** Invariants of the items that hold for all calls *)

Section ItemInvariant.

Variable P : AuctionItem -> Prop.
Variable ok : call -> Prop.
Hypothesis P_applyBid : forall c item,
  ok c -> P item -> (c_now c < auctionEndTime item)%Z ->
  JS.le (c_bidAmount c) (currentBid item) = false -> P (applyBid c item).

Lemma placeBid_keeps c st o st' :
  ok c -> gatesFree st -> Forall P (auctionItems st) ->
  placeBid c st = Some (o, st') -> Forall P (auctionItems st').
Proof using P_applyBid.
  intros Hc Hfree HP Hp.
  destruct (placeBid_step_of c st o st' Hfree Hp) as (_ & [[_ E] | Hacc]).
  - now rewrite E.
  - destruct Hacc as (k & item & (Hk & _) & Hopen & Hle & _ & E).
    rewrite E. apply Forall_insert; [exact HP|].
    apply P_applyBid; auto. rewrite Forall_lookup in HP. eauto.
Qed.

Lemma placeBids_keep cs : forall st,
  Forall ok cs -> gatesFree st -> Forall P (auctionItems st) ->
  exists os st', placeBids cs st = Some (os, st') /\ gatesFree st' /\
                 Forall P (auctionItems st').
Proof using P_applyBid.
  induction cs as [|c cs IH]; intros st Hcs Hfree HP.
  - exists [], st. auto.
  - apply Forall_cons_1 in Hcs as [Hc Hcs].
    destruct (placeBid_step c st Hfree) as (o & st1 & Hp & Hfree1 & _).
    pose proof (placeBid_keeps c st o st1 Hc Hfree HP Hp) as HP1.
    destruct (IH st1 Hcs Hfree1 HP1) as (os & st2 & Hps & Hfree2 & HP2).
    exists (o :: os), st2. simpl. rewrite Hp, Hps. auto.
Qed.

End ItemInvariant.

Lemma Forall_sampleItems (P : AuctionItem -> Prop) now :
  (forall i t d u price endTime, P (sampleItem i t d u price endTime)) ->
  Forall P (createSampleItems now).
Proof.
  intros H. unfold createSampleItems.
  repeat (apply Forall_cons_2; [apply H|]). apply Forall_nil_2.
Qed.

(** X2: after any run of [placeBid] calls on the seeded store, whatever
    their arguments, each item either has an empty [bidHistory], its
    [startingPrice] as [currentBid] and no leader, or has as [currentBid]
    and [highestBidderId] the amount and bidder of the last record of its
    [bidHistory]. *)
Theorem price_is_last_bid (now : Z) (cs : list call) :
  exists os st, placeBids cs (initialStore now) = Some (os, st) /\
    forall k item, auctionItems st !! k = Some item ->
      match list.last (bidHistory item) with
      | None => bidHistory item = [] /\
                currentBid item = VNum (Fin (startingPrice item)) /\
                highestBidderId item = VNull
      | Some b => bid_amount b = currentBid item /\
                  bid_bidderId b = highestBidderId item
      end.
Proof.
  destruct (placeBids_keep
              (fun item => match list.last (bidHistory item) with
                           | None => bidHistory item = [] /\
                                     currentBid item = VNum (Fin (startingPrice item)) /\
                                     highestBidderId item = VNull
                           | Some b => bid_amount b = currentBid item /\
                                       bid_bidderId b = highestBidderId item
                           end)
              (fun _ => True)) with (cs := cs) (st := initialStore now)
    as (os & st & Hrun & _ & HP).
  - intros c item _ _ _ _. simpl. rewrite last_snoc. auto.
  - apply Forall_true. auto.
  - apply gatesFree_initial.
  - apply Forall_sampleItems. intros. simpl. auto.
  - exists os, st. split; [exact Hrun|]. now rewrite Forall_lookup in HP.
Qed.

(** X3: no bid is ever recorded at or after the deadline: after any run of
    [placeBid] calls on the seeded store, every record in an item's
    [bidHistory] has a [timestamp] before that item's [auctionEndTime]. *)
Theorem bids_recorded_before_deadline (now : Z) (cs : list call) :
  exists os st, placeBids cs (initialStore now) = Some (os, st) /\
    forall k item b, auctionItems st !! k = Some item ->
      In b (bidHistory item) ->
      (bid_timestamp b < auctionEndTime item)%Z.
Proof.
  destruct (placeBids_keep
              (fun item => Forall (fun b => bid_timestamp b < auctionEndTime item)%Z
                                  (bidHistory item))
              (fun _ => True)) with (cs := cs) (st := initialStore now)
    as (os & st & Hrun & _ & HP).
  - intros c item _ HP Hopen _. simpl. apply Forall_app. split; [exact HP|].
    apply Forall_cons_2; [exact Hopen | apply Forall_nil_2].
  - apply Forall_true. auto.
  - apply gatesFree_initial.
  - apply Forall_sampleItems. intros. simpl. apply Forall_nil_2.
  - exists os, st. split; [exact Hrun|]. intros k item b Hk Hb.
    rewrite Forall_lookup in HP. specialize (HP k item Hk).
    rewrite List.Forall_forall in HP. now apply HP.
Qed.

Lemma StronglySorted_snoc {A} (R : A -> A -> Prop) (l : list A) (y : A) :
  StronglySorted R l -> Forall (fun x => R x y) l ->
  StronglySorted R (l ++ [y]).
Proof.
  induction 1 as [|x l Hl IH Hx]; intros Hy; simpl.
  - repeat constructor.
  - apply Forall_cons_1 in Hy as [Hxy Hy]. constructor; [auto|].
    apply Forall_app. split; [exact Hx|]. repeat constructor. exact Hxy.
Qed.

Lemma placeBids_chronological cs : forall st t,
  gatesFree st ->
  Forall (fun item =>
            StronglySorted Z.le (map bid_timestamp (bidHistory item)) /\
            Forall (fun b => bid_timestamp b <= t)%Z (bidHistory item))
         (auctionItems st) ->
  Forall (fun c => t <= c_now c)%Z cs ->
  StronglySorted Z.le (map c_now cs) ->
  exists os st', placeBids cs st = Some (os, st') /\
    Forall (fun item => StronglySorted Z.le (map bid_timestamp (bidHistory item)))
           (auctionItems st').
Proof.
  induction cs as [|c cs IH]; intros st t Hfree HP Ht Hsorted.
  - exists [], st. split; [reflexivity|].
    eapply List.Forall_impl; [|exact HP]. now intros item [H _].
  - apply Forall_cons_1 in Ht as [Htc Ht]. simpl in Hsorted.
    apply StronglySorted_inv in Hsorted as [Hsorted Hc].
    destruct (placeBid_step c st Hfree) as (o & st1 & Hp & Hfree1 & _).
    assert (HP1 : Forall (fun item =>
              StronglySorted Z.le (map bid_timestamp (bidHistory item)) /\
              Forall (fun b => bid_timestamp b <= c_now c)%Z (bidHistory item))
              (auctionItems st1)).
    { apply (placeBid_keeps _ (fun c0 => c0 = c)) with (c := c) (st := st) (o := o);
        auto.
      - intros c0 item -> [Hs Hb] _ _. simpl. split.
        + rewrite map_app. apply StronglySorted_snoc; [exact Hs|].
          rewrite Forall_fmap. exact Hb.
        + apply Forall_app. split; [exact Hb|]. repeat constructor. simpl. lia.
      - eapply List.Forall_impl; [|exact HP]. intros item [Hs Hb]. split; [exact Hs|].
        eapply List.Forall_impl; [|exact Hb]. simpl. intros b Hbt. lia. }
    destruct (IH st1 (c_now c) Hfree1 HP1) as (os & st2 & Hps & HP2).
    { rewrite Forall_fmap in Hc. exact Hc. }
    { exact Hsorted. }
    exists (o :: os), st2. simpl. rewrite Hp, Hps. auto.
Qed.

(** X4: when the clock readings of the calls of a run do not go back, each
    item's [bidHistory] is in chronological order: the [timestamp]s of its
    records never decrease. *)
Theorem history_is_chronological (now : Z) (cs : list call) :
  StronglySorted Z.le (map c_now cs) ->
  exists os st, placeBids cs (initialStore now) = Some (os, st) /\
    forall k item, auctionItems st !! k = Some item ->
      StronglySorted Z.le (map bid_timestamp (bidHistory item)).
Proof.
  intros Hsorted.
  assert (Hmin : exists t, Forall (fun c => t <= c_now c)%Z cs).
  { destruct cs as [|c cs]; [exists 0%Z; constructor|].
    exists (c_now c). simpl in Hsorted.
    apply StronglySorted_inv in Hsorted as [_ Hc].
    constructor; [lia|]. now rewrite Forall_fmap in Hc. }
  destruct Hmin as [t Ht].
  destruct (placeBids_chronological cs (initialStore now) t
              (gatesFree_initial now)) as (os & st & Hrun & HP); auto.
  - apply Forall_sampleItems. intros. simpl. split; constructor.
  - exists os, st. split; [exact Hrun|]. now rewrite Forall_lookup in HP.
Qed.

Lemma history_is_chronological_witness :
  StronglySorted Z.le (map c_now [aliceBids60; bobBids55; bobBids70]) /\
  exists os st,
    placeBids [aliceBids60; bobBids55; bobBids70] (initialStore 0) = Some (os, st) /\
    forall k item, auctionItems st !! k = Some item ->
      StronglySorted Z.le (map bid_timestamp (bidHistory item)).
Proof.
  assert (H : StronglySorted Z.le (map c_now [aliceBids60; bobBids55; bobBids70])).
  { simpl. repeat constructor; lia. }
  split; [exact H|].
  exact (history_is_chronological 0 [aliceBids60; bobBids55; bobBids70] H).
Defined.

(** X5: over a run of calls with non-null bidders and numeric amounts, the
    amounts recorded in an item's [bidHistory] are numbers that go strictly
    up, starting above the item's [startingPrice]. *)
Theorem recorded_amounts_increase (now : Z) (cs : list call) :
  Forall ordinaryCall cs ->
  exists os st, placeBids cs (initialStore now) = Some (os, st) /\
    forall k item, auctionItems st !! k = Some item ->
      exists zs,
        map bid_amount (bidHistory item) = map (fun z => VNum (Fin z)) zs /\
        StronglySorted Z.lt (startingPrice item :: zs).
Proof.
  intros Hcs.
  destruct (placeBids_keep
              (fun item => exists zs z,
                 map bid_amount (bidHistory item) = map (fun z => VNum (Fin z)) zs /\
                 currentBid item = VNum (Fin z) /\
                 StronglySorted Z.lt (startingPrice item :: zs) /\
                 Forall (fun x => x <= z)%Z (startingPrice item :: zs))
              ordinaryCall) with (cs := cs) (st := initialStore now)
    as (os & st & Hrun & _ & HP).
  - intros c item (_ & a & Ha) (zs & z & Hmap & Hz & Hs & Hb) _ Hle.
    rewrite Ha, Hz, le_Fin in Hle. apply Z.leb_gt in Hle.
    exists (zs ++ [a])%list, a. simpl. rewrite !map_app, Hmap. simpl.
    split; [now rewrite Ha|]. split; [exact Ha|]. split.
    + change (StronglySorted Z.lt ((startingPrice item :: zs) ++ [a])).
      apply StronglySorted_snoc; [exact Hs|].
      eapply List.Forall_impl; [|exact Hb]. simpl. intros x Hx. lia.
    + change (Forall (fun x => x <= a)%Z ((startingPrice item :: zs) ++ [a])).
      apply Forall_app. split.
      * eapply List.Forall_impl; [|exact Hb]. simpl. intros x Hx. lia.
      * repeat constructor. lia.
  - exact Hcs.
  - apply gatesFree_initial.
  - apply Forall_sampleItems. intros. exists [], price. simpl.
    repeat split; repeat constructor. lia.
  - exists os, st. split; [exact Hrun|]. intros k item Hk.
    rewrite Forall_lookup in HP. destruct (HP k item Hk) as (zs & z & Hmap & _ & Hs & _).
    eauto.
Qed.

Lemma recorded_amounts_increase_witness :
  Forall ordinaryCall [aliceBids60; bobBids55; bobBids70] /\
  exists os st,
    placeBids [aliceBids60; bobBids55; bobBids70] (initialStore 0) = Some (os, st) /\
    forall k item, auctionItems st !! k = Some item ->
      exists zs,
        map bid_amount (bidHistory item) = map (fun z => VNum (Fin z)) zs /\
        StronglySorted Z.lt (startingPrice item :: zs).
Proof.
  assert (H : Forall ordinaryCall [aliceBids60; bobBids55; bobBids70]).
  { repeat apply Forall_cons_2; try apply Forall_nil_2;
      (split; [discriminate | eexists; reflexivity]). }
  split; [exact H|].
  exact (recorded_amounts_increase 0 [aliceBids60; bobBids55; bobBids70] H).
Defined.

(** ** The final price *)

#[local] Arguments strict_eq : simpl never.

Lemma foundAt_of_NoDup items k item :
  NoDup (map id items) -> items !! k = Some item ->
  foundAt (VStr (id item)) items k item.
Proof.
  intros Hnd Hk. split; [exact Hk|]. split; [reflexivity|].
  intros j other Hj Hlt [= E].
  assert (j = k); [|lia].
  eapply (NoDup_lookup _ j k (id other) Hnd).
  - now rewrite list_lookup_fmap, Hj.
  - now rewrite list_lookup_fmap, Hk, E.
Qed.

Lemma placeBid_price c st :
  storeOK st -> ordinaryCall c ->
  exists o st', placeBid c st = Some (o, st') /\ storeOK st' /\
    length (auctionItems st') = length (auctionItems st) /\
    forall k item z, auctionItems st !! k = Some item ->
      currentBid item = VNum (Fin z) ->
      exists item', auctionItems st' !! k = Some item' /\
        id item' = id item /\ auctionEndTime item' = auctionEndTime item /\
        startingPrice item' = startingPrice item /\
        currentBid item' =
          VNum (Fin (fold_left Z.max
                       (bidsInTime (id item) (auctionEndTime item) [c]) z)).
Proof.
  intros Hst Hc.
  destruct (placeBid_preserves c st Hst Hc) as (o & st' & Hp & Hst' & Hlen & _).
  exists o, st'. split; [exact Hp|]. split; [exact Hst'|]. split; [exact Hlen|].
  destruct Hst as (Hfree & _ & Hnd). destruct Hc as (_ & a & Ha).
  intros k item z Hk Hz. unfold bidsInTime. simpl. rewrite Ha. simpl.
  destruct (strict_eq (VStr (id item)) (c_itemId c)) eqn:Eid; simpl.
  - apply strict_eq_VStr in Eid.
    pose proof (foundAt_of_NoDup _ k item Hnd Hk) as Hfound. rewrite Eid in Hfound.
    destruct (placeBid_found c st k item Hfree Hfound) as (o1 & st1 & Hp1 & _ & Hres).
    rewrite Hp in Hp1. injection Hp1 as <- <-.
    rewrite Ha, Hz, le_Fin in Hres.
    destruct (Z.leb_spec (auctionEndTime item) (c_now c)) as [Hend|Hopen].
    + injection Hres as _ ->. exists item.
      replace (c_now c <? auctionEndTime item)%Z with false
        by (symmetry; apply Z.ltb_ge; lia).
      simpl. auto.
    + replace (c_now c <? auctionEndTime item)%Z with true
        by (symmetry; apply Z.ltb_lt; lia).
      simpl. destruct (Z.leb_spec a z) as [Hlow|Hhigh].
      * injection Hres as _ ->. exists item. rewrite Z.max_l by lia. auto.
      * injection Hres as _ ->. exists (applyBid c item).
        rewrite list_lookup_insert_eq by (eapply lookup_lt_Some; eauto).
        rewrite Z.max_r by lia. simpl. rewrite Ha. auto.
  - exists item. simpl. repeat split; auto.
    destruct (placeBid_step_of c st o st' Hfree Hp) as (_ & [[_ E] | Hacc]).
    + now rewrite E.
    + destruct Hacc as (k0 & item0 & (Hk0 & Hid0 & _) & _ & _ & _ & E).
      rewrite E. rewrite list_lookup_insert_ne; [exact Hk|].
      intros ->. assert (item = item0) as -> by congruence.
      rewrite <- Hid0 in Eid.
      assert (strict_eq (VStr (id item0)) (VStr (id item0)) = true)
        by now apply strict_eq_VStr.
      congruence.
Qed.

Lemma bidsInTime_cons i deadline c cs :
  bidsInTime i deadline (c :: cs) =
  (bidsInTime i deadline [c] ++ bidsInTime i deadline cs)%list.
Proof.
  unfold bidsInTime. simpl.
  destruct (strict_eq (VStr i) (c_itemId c) && (c_now c <? deadline)%Z);
    [destruct (amountOf (c_bidAmount c))|]; reflexivity.
Qed.

Lemma placeBids_price cs : forall st,
  storeOK st -> Forall ordinaryCall cs ->
  exists os st', placeBids cs st = Some (os, st') /\
    length (auctionItems st') = length (auctionItems st) /\
    forall k item z, auctionItems st !! k = Some item ->
      currentBid item = VNum (Fin z) ->
      exists item', auctionItems st' !! k = Some item' /\
        id item' = id item /\ auctionEndTime item' = auctionEndTime item /\
        startingPrice item' = startingPrice item /\
        currentBid item' =
          VNum (Fin (fold_left Z.max
                       (bidsInTime (id item) (auctionEndTime item) cs) z)).
Proof.
  induction cs as [|c cs IH]; intros st Hst Hcs.
  - exists [], st. split; [reflexivity|]. split; [reflexivity|].
    intros k item z Hk Hz. exists item. auto.
  - apply Forall_cons_1 in Hcs as [Hc Hcs].
    destruct (placeBid_price c st Hst Hc) as (o & st1 & Hp & Hst1 & Hlen1 & Hstep).
    destruct (IH st1 Hst1 Hcs) as (os & st2 & Hps & Hlen2 & Hrun).
    exists (o :: os), st2.
    split; [simpl; now rewrite Hp, Hps|]. split; [congruence|].
    intros k item z Hk Hz.
    destruct (Hstep k item z Hk Hz) as (item1 & Hk1 & Hid1 & Hend1 & Hsp1 & Hz1).
    destruct (Hrun k item1 _ Hk1 Hz1) as (item2 & Hk2 & Hid2 & Hend2 & Hsp2 & Hz2).
    exists item2. rewrite bidsInTime_cons, fold_left_app.
    rewrite Hid1, Hend1 in Hz2. repeat split; congruence.
Qed.

Lemma initial_price now k item :
  auctionItems (initialStore now) !! k = Some item ->
  currentBid item = VNum (Fin (startingPrice item)).
Proof.
  simpl. unfold createSampleItems, sampleItem.
  do 6 (destruct k as [|k]; [intros [= <-]; reflexivity|]). now simpl.
Qed.

(** X6: over a run of calls with non-null bidders and numeric amounts from
    the seeded store, the [currentBid] an item ends with is the largest of
    its [startingPrice] and the amounts of the calls that named it and read
    the clock before its [auctionEndTime]. *)
Theorem final_price_is_highest_bid (now : Z) (cs : list call) :
  Forall ordinaryCall cs ->
  exists os st, placeBids cs (initialStore now) = Some (os, st) /\
    length (auctionItems st) = 6%nat /\
    forall k item, auctionItems st !! k = Some item ->
      currentBid item =
        VNum (Fin (fold_left Z.max
                     (bidsInTime (id item) (auctionEndTime item) cs)
                     (startingPrice item))).
Proof.
  intros Hcs.
  destruct (placeBids_price cs (initialStore now) (storeOK_initial now) Hcs)
    as (os & st & Hrun & Hlen & Hitems).
  exists os, st. split; [exact Hrun|]. split; [exact Hlen|].
  intros k item Hk.
  destruct (lookup_lt_is_Some_2 (auctionItems (initialStore now)) k) as [item0 Hk0].
  { rewrite <- Hlen. eapply lookup_lt_Some, Hk. }
  destruct (Hitems k item0 _ Hk0 (initial_price now k item0 Hk0))
    as (item' & Hk' & Hid & Hend & Hsp & Hz).
  assert (item' = item) as -> by congruence.
  now rewrite Hz, Hid, Hend, Hsp.
Qed.

Lemma final_price_is_highest_bid_witness :
  Forall ordinaryCall [aliceBids60; bobBids55; bobBids70] /\
  exists os st item,
    placeBids [aliceBids60; bobBids55; bobBids70] (initialStore 0) = Some (os, st) /\
    auctionItems st !! 0%nat = Some item /\
    currentBid item = VNum (Fin 70).
Proof.
  assert (H : Forall ordinaryCall [aliceBids60; bobBids55; bobBids70]).
  { repeat apply Forall_cons_2; try apply Forall_nil_2;
      (split; [discriminate | eexists; reflexivity]). }
  split; [exact H|].
  destruct (final_price_is_highest_bid 0 [aliceBids60; bobBids55; bobBids70] H)
    as (os & st & Hrun & Hlen & Hprice).
  destruct (lookup_lt_is_Some_2 (auctionItems st) 0%nat) as [item Hk].
  { rewrite Hlen. lia. }
  exists os, st, item. split; [exact Hrun|]. split; [exact Hk|].
  rewrite (Hprice 0%nat item Hk).
  pose proof Hrun as Hrun'. vm_compute in Hrun'. injection Hrun' as _ <-.
  vm_compute in Hk. injection Hk as <-. reflexivity.
Defined.

Lemma fold_left_max_Permutation (l l' : list Z) :
  Permutation l l' -> forall z, fold_left Z.max l z = fold_left Z.max l' z.
Proof.
  induction 1 as [|x l l' _ IH|x y l|l1 l2 l3 _ IH1 _ IH2]; intros z; simpl.
  - reflexivity.
  - apply IH.
  - f_equal. lia.
  - now rewrite IH1.
Qed.

(** X7: the final prices do not depend on the order of the calls: two runs
    of the same calls (non-null bidders, numeric amounts, each call with
    its own clock reading) from the same seeded store end with the same
    [currentBid] on every item. *)
Theorem final_price_order_independent (now : Z) (cs cs' : list call) :
  Forall ordinaryCall cs -> Permutation cs cs' ->
  exists os st os' st',
    placeBids cs (initialStore now) = Some (os, st) /\
    placeBids cs' (initialStore now) = Some (os', st') /\
    map currentBid (auctionItems st) = map currentBid (auctionItems st').
Proof.
  intros Hcs Hperm.
  assert (Hcs' : Forall ordinaryCall cs').
  { rewrite List.Forall_forall in *. intros c Hc. apply Hcs.
    eapply Permutation_in; [symmetry; exact Hperm | exact Hc]. }
  destruct (placeBids_price cs (initialStore now) (storeOK_initial now) Hcs)
    as (os & st & Hrun & Hlen & Hitems).
  destruct (placeBids_price cs' (initialStore now) (storeOK_initial now) Hcs')
    as (os' & st' & Hrun' & Hlen' & Hitems').
  exists os, st, os', st'. split; [exact Hrun|]. split; [exact Hrun'|].
  apply list_eq. intros k. rewrite !list_lookup_fmap.
  destruct (auctionItems (initialStore now) !! k) as [item0|] eqn:Hk0.
  - destruct (Hitems k item0 _ Hk0 (initial_price now k item0 Hk0))
      as (item & -> & _ & _ & _ & Hz).
    destruct (Hitems' k item0 _ Hk0 (initial_price now k item0 Hk0))
      as (item' & -> & _ & _ & _ & Hz').
    simpl. rewrite Hz, Hz'. do 3 f_equal.
    apply fold_left_max_Permutation. unfold bidsInTime.
    now apply omap_Permutation.
  - apply lookup_ge_None in Hk0.
    rewrite (proj2 (lookup_ge_None (auctionItems st) k)) by lia.
    rewrite (proj2 (lookup_ge_None (auctionItems st') k)) by lia.
    reflexivity.
Qed.

Lemma final_price_order_independent_witness :
  Forall ordinaryCall [aliceBids60; bobBids70] /\
  Permutation [aliceBids60; bobBids70] [bobBids70; aliceBids60] /\
  exists os st os' st',
    placeBids [aliceBids60; bobBids70] (initialStore 0) = Some (os, st) /\
    placeBids [bobBids70; aliceBids60] (initialStore 0) = Some (os', st') /\
    map currentBid (auctionItems st) = map currentBid (auctionItems st').
Proof.
  assert (H : Forall ordinaryCall [aliceBids60; bobBids70]).
  { repeat apply Forall_cons_2; try apply Forall_nil_2;
      (split; [discriminate | eexists; reflexivity]). }
  assert (Hp : Permutation [aliceBids60; bobBids70] [bobBids70; aliceBids60])
    by apply perm_swap.
  split; [exact H|]. split; [exact Hp|].
  exact (final_price_order_independent 0 _ _ H Hp).
Defined.

(** ** Closed auctions *)

(** X8: bids on closed auctions change nothing: when every call of a run
    reads the clock at or after the [auctionEndTime] of the item it names,
    each call ends in AUCTION_ENDED (or ITEM_NOT_FOUND when it names no
    item), whatever its amount, and [auctionItems] is at the end what it
    was at the start. *)
Theorem closed_auctions_are_frozen (cs : list call) : forall (st : store),
  gatesFree st -> Forall (afterDeadline (auctionItems st)) cs ->
  exists os st', placeBids cs st = Some (os, st') /\
    auctionItems st' = auctionItems st /\
    length os = length cs /\
    Forall (fun o => o = AUCTION_ENDED \/ o = ITEM_NOT_FOUND) os.
Proof.
  induction cs as [|c cs IH]; intros st Hfree Hcs.
  - exists [], st. repeat split; auto.
  - apply Forall_cons_1 in Hcs as [Hc Hcs].
    assert (Hone : exists o st1, placeBid c st = Some (o, st1) /\
              gatesFree st1 /\ auctionItems st1 = auctionItems st /\
              (o = AUCTION_ENDED \/ o = ITEM_NOT_FOUND)).
    { destruct (findItem (c_itemId c) (auctionItems st)) as [[k item]|] eqn:E.
      - apply findItem_Some in E.
        destruct (placeBid_found c st k item Hfree E) as (o & st1 & Hp & Hfree1 & Hres).
        specialize (Hc k item E). apply Z.leb_le in Hc. rewrite Hc in Hres.
        injection Hres as -> Hitems. exists AUCTION_ENDED, st1. auto.
      - apply findItem_None in E.
        destruct (placeBid_not_found c st Hfree E) as (st1 & Hp & Hitems & Hfree1).
        exists ITEM_NOT_FOUND, st1. auto. }
    destruct Hone as (o & st1 & Hp & Hfree1 & Hitems1 & Ho).
    destruct (IH st1 Hfree1) as (os & st2 & Hps & Hitems2 & Hlen & Hos).
    { now rewrite Hitems1. }
    exists (o :: os), st2. simpl. rewrite Hp, Hps.
    split; [reflexivity|]. split; [congruence|]. split; [now rewrite Hlen|].
    now apply Forall_cons_2.
Qed.

Lemma closed_auctions_are_frozen_witness :
  gatesFree (initialStore 0) /\
  Forall (afterDeadline (auctionItems (initialStore 0)))
    [ {| c_itemId := VStr "item-003"; c_bidderId := VStr "alice";
         c_bidAmount := VNum (Fin 1000); c_now := 180000; c_uuid := "late" |} ] /\
  exists os st',
    placeBids [ {| c_itemId := VStr "item-003"; c_bidderId := VStr "alice";
                   c_bidAmount := VNum (Fin 1000); c_now := 180000;
                   c_uuid := "late" |} ] (initialStore 0) = Some (os, st') /\
    auctionItems st' = auctionItems (initialStore 0).
Proof.
  assert (H : Forall (afterDeadline (auctionItems (initialStore 0)))
    [ {| c_itemId := VStr "item-003"; c_bidderId := VStr "alice";
         c_bidAmount := VNum (Fin 1000); c_now := 180000; c_uuid := "late" |} ]).
  { apply Forall_cons_2; [|apply Forall_nil_2].
    intros k item Hfound. apply findItem_Some in Hfound.
    vm_compute in Hfound. injection Hfound as _ <-. simpl. lia. }
  split; [apply gatesFree_initial|]. split; [exact H|].
  destruct (closed_auctions_are_frozen _ (initialStore 0) (gatesFree_initial 0) H)
    as (os & st' & Hrun & Hitems & _).
  exists os, st'. auto.
Defined.

(** ** Gates over a run *)

(** X9: after any run of [placeBid] calls started with all gates free, all
    gates are free again, the keys of the gate map are the keys it had plus
    the [itemId]s of the calls, and there is one outcome per call. *)
Theorem gates_after_run (cs : list call) (st : store) :
  gatesFree st ->
  exists os st', placeBids cs st = Some (os, st') /\
    gatesFree st' /\ length os = length cs /\
    dom (itemLocks st') = dom (itemLocks st) ∪ list_to_set (map c_itemId cs).
Proof.
  revert st. induction cs as [|c cs IH]; intros st Hfree.
  - exists [], st. split; [reflexivity|]. split; [assumption|].
    split; [reflexivity|]. set_solver.
  - destruct (placeBid_returns c st Hfree) as (o & items' & _ & Hp).
    destruct (IH _ (gatesFree_release (c_itemId c) items' st Hfree))
      as (os & st' & Hps & Hfree' & Hlen & Hdom).
    exists (o :: os), st'. simpl. rewrite Hp, Hps.
    split; [reflexivity|]. split; [assumption|]. split; [now rewrite Hlen|].
    rewrite Hdom. simpl. rewrite dom_insert_L. set_solver.
Qed.

Lemma gates_after_run_witness :
  gatesFree (initialStore 0) /\
  exists os st', placeBids [ghostBid; aliceBids60; bobBids70] (initialStore 0)
                 = Some (os, st') /\
    dom (itemLocks st') = {[VStr "no-such-item"; VStr "item-001"]}.
Proof.
  split; [apply gatesFree_initial|].
  destruct (gates_after_run [ghostBid; aliceBids60; bobBids70] (initialStore 0)
              (gatesFree_initial 0)) as (os & st' & Hrun & _ & _ & Hdom).
  exists os, st'. split; [exact Hrun|]. rewrite Hdom. simpl.
  rewrite dom_empty_L. set_solver.
Defined.

(** ** The running server *)

Lemma serverReachable_catalogue st :
  serverReachable st ->
  map catalogue (auctionItems st) = map catalogue (createSampleItems 0).
Proof.
  induction 1 as [now | r h st Hreach IH Hh | now st Hreach _];
    try reflexivity.
  destruct (serverReachable_ok st Hreach) as [Hfree _].
  destruct (onBidPlaced_cases r st h Hh) as (i & a & b & _ & [Hbad | Hgood]).
  - destruct Hbad as (_ & _ & _ & ->). exact IH.
  - destruct Hgood as (_ & _ & _ & o & Hp & _).
    destruct (placeBid_step_of _ st o (after h) Hfree Hp) as (_ & [[_ E] | Hacc]).
    + now rewrite E.
    + destruct Hacc as (k & item & (Hk & _) & _ & _ & _ & E).
      rewrite E, list_fmap_insert, list_insert_id; [exact IH|].
      now rewrite list_lookup_fmap, Hk.
Qed.

Lemma serverReachable_ids st :
  serverReachable st -> map id (auctionItems st) = sampleIds.
Proof.
  intros H. apply serverReachable_catalogue in H.
  apply (f_equal (map (fun c => fst (fst (fst (fst c)))))) in H.
  rewrite <- !list_fmap_compose in H. exact H.
Qed.

Lemma serverReachable_NoDup st :
  serverReachable st -> NoDup (map id (auctionItems st)).
Proof.
  intros H. rewrite (serverReachable_ids st H).
  apply (bool_decide_unpack _). vm_compute. reflexivity.
Qed.

(** X10: in every state of the running server the [BID_PLACED] listener
    runs to its end for every payload object whose [itemId], [bidAmount]
    and [bidderId] are primitive values (or missing), invoking the callback
    exactly once when the request has one and not at all otherwise; on such
    payloads it throws only when the payload itself is [undefined] or
    [null]. *)
Theorem onBidPlaced_completes (st : store) (r : request) :
  serverReachable st ->
  match r_data r with
  | PUndefined | PNull => onBidPlaced r st = ThrewTypeError
  | PObject _ _ _ =>
      exists h, onBidPlaced r st = Returned h /\
                length (acks h) = (if r_callback r then 1 else 0)%nat
  end.
Proof.
  intros Hreach. destruct (serverReachable_ok st Hreach) as [Hfree _].
  unfold onBidPlaced. destruct (r_data r) as [| |i a b]; try reflexivity.
  destruct (negb (ToBoolean i) || negb (ToBoolean a) || negb (ToBoolean b)).
  - eexists. split; [reflexivity|]. simpl. now destruct (r_callback r).
  - destruct (placeBid_step {| c_itemId := i; c_bidderId := b; c_bidAmount := a;
                               c_now := r_now r; c_uuid := r_uuid r |} st Hfree)
      as (o & st' & -> & _).
    destruct o; eexists; (split; [reflexivity|]); simpl;
      now destruct (r_callback r).
Qed.

Lemma onBidPlaced_completes_witness :
  serverReachable (initialStore 0) /\
  exists h, onBidPlaced aliceRequest60 (initialStore 0) = Returned h /\
            length (acks h) = 1%nat.
Proof.
  split; [apply reach_init|].
  exact (onBidPlaced_completes (initialStore 0) aliceRequest60 (reach_init 0)).
Defined.

(** ** Reading back what a bid wrote *)

Lemma foundAt_insert itemId items k x x' j y :
  items !! k = Some x -> id x' = id x ->
  foundAt itemId items j y ->
  foundAt itemId (<[k := x']> items) j (if decide (j = k) then x' else y).
Proof.
  intros Hk Hid (Hj & Hy & Hmin). split; [|split].
  - destruct (decide (j = k)) as [->|Hne].
    + apply list_lookup_insert_eq. eapply lookup_lt_Some; eauto.
    + now rewrite list_lookup_insert_ne by auto.
  - destruct (decide (j = k)) as [->|Hne]; [|exact Hy].
    assert (y = x) as -> by congruence. now rewrite Hid.
  - intros j' other Hj' Hlt. destruct (decide (j' = k)) as [->|Hne].
    + rewrite list_lookup_insert_eq in Hj' by (eapply lookup_lt_Some; eauto).
      injection Hj' as <-. rewrite Hid. eapply Hmin; eauto.
    + rewrite list_lookup_insert_ne in Hj' by auto. eapply Hmin; eauto.
Qed.

Lemma noItem_insert itemId items k x x' :
  items !! k = Some x -> id x' = id x ->
  noItem itemId items -> noItem itemId (<[k := x']> items).
Proof.
  intros Hk Hid Hno. apply Forall_insert; [exact Hno|].
  rewrite Hid. unfold noItem in Hno. rewrite Forall_lookup in Hno. eauto.
Qed.

Lemma getItemById_insert itemId items k x x' L L' :
  items !! k = Some x -> id x' = id x ->
  getItemById itemId {| auctionItems := <[k := x']> items; itemLocks := L' |} =
  match findItem itemId items with
  | Some (j, y) => Some (if decide (j = k) then x' else y)
  | None => getItemById itemId {| auctionItems := items; itemLocks := L |}
  end.
Proof.
  intros Hk Hid. unfold getItemById. simpl.
  destruct (findItem itemId items) as [[j y]|] eqn:E.
  - apply findItem_Some in E.
    pose proof (foundAt_insert itemId items k x x' j y Hk Hid E) as E'.
    apply findItem_Some in E'. now rewrite E'.
  - apply findItem_None in E.
    pose proof (noItem_insert itemId items k x x' Hk Hid E) as E'.
    apply findItem_None in E'. now rewrite E'.
Qed.

Lemma placeBid_accepted_read (c : call) (st : store)
    (view : BidItemView) (prev : value) (st' : store) :
  gatesFree st -> placeBid c st = Some (ACCEPTED view prev, st') ->
  (exists item',
     getItemById (c_itemId c) st' = Some item' /\
     view = bidItemView item' /\
     currentBid item' = c_bidAmount c /\
     highestBidderId item' = c_bidderId c /\
     list.last (bidHistory item') =
       Some {| bid_id := c_uuid c; bid_bidderId := c_bidderId c;
               bid_amount := c_bidAmount c; bid_timestamp := c_now c |}) /\
  (exists before, getItemById (c_itemId c) st = Some before /\
                  prev = highestBidderId before) /\
  forall other, other <> c_itemId c ->
    getItemById other st' = getItemById other st.
Proof.
  intros Hfree Hp.
  destruct (placeBid_accepted c st view prev st' Hfree Hp)
    as (k & item & Hfound & -> & -> & Hitems).
  pose proof Hfound as (Hk & Hid & _).
  assert (Hget : forall i, getItemById i st' =
            match findItem i (auctionItems st) with
            | Some (j, y) => Some (if decide (j = k) then applyBid c item else y)
            | None => getItemById i st
            end).
  { intros i. destruct st as [items L], st' as [items' L']. simpl in *. subst items'.
    now apply getItemById_insert with (x := item). }
  split; [|split].
  - exists (applyBid c item). rewrite Hget.
    apply findItem_Some in Hfound. rewrite Hfound.
    rewrite decide_True by reflexivity.
    repeat split; try reflexivity. simpl. apply last_snoc.
  - exists item. split; [|reflexivity].
    apply getItemById_stored. eauto.
  - intros other Hother. rewrite Hget. unfold getItemById.
    destruct (findItem other (auctionItems st)) as [[j y]|] eqn:E; [|reflexivity].
    simpl. destruct (decide (j = k)) as [->|Hne]; [|reflexivity].
    apply findItem_Some in E. destruct E as (Hj & Hy & _).
    assert (y = item) as -> by congruence. congruence.
Qed.

(** X11: an accepted bid can be read back: after [placeBid] resolves to
    ACCEPTED, [getItemById] for the same [itemId] returns the item with the
    call's amount as [currentBid], its bidder as [highestBidderId] and its
    record last in [bidHistory], the result's [item] is the view of that
    item, and [getItemById] for every other id returns what it returned
    before. *)
Theorem accepted_bid_is_visible (c : call) (st : store)
    (view : BidItemView) (prev : value) (st' : store) :
  gatesFree st -> placeBid c st = Some (ACCEPTED view prev, st') ->
  (exists item',
     getItemById (c_itemId c) st' = Some item' /\
     view = bidItemView item' /\
     currentBid item' = c_bidAmount c /\
     highestBidderId item' = c_bidderId c /\
     list.last (bidHistory item') =
       Some {| bid_id := c_uuid c; bid_bidderId := c_bidderId c;
               bid_amount := c_bidAmount c; bid_timestamp := c_now c |}) /\
  (exists before, getItemById (c_itemId c) st = Some before /\
                  prev = highestBidderId before) /\
  forall other, other <> c_itemId c ->
    getItemById other st' = getItemById other st.
Proof. apply placeBid_accepted_read. Qed.

Lemma accepted_bid_is_visible_witness :
  gatesFree (initialStore 0) /\
  exists view prev st' item',
    placeBid aliceBids60 (initialStore 0) = Some (ACCEPTED view prev, st') /\
    getItemById (VStr "item-001") st' = Some item' /\
    currentBid item' = VNum (Fin 60) /\
    getItemById (VStr "item-002") st' =
      getItemById (VStr "item-002") (initialStore 0).
Proof.
  split; [apply gatesFree_initial|].
  destruct (placeBid aliceBids60 (initialStore 0)) as [[o st']|] eqn:Hp;
    [|vm_compute in Hp; discriminate].
  assert (Ho : exists view prev, o = ACCEPTED view prev).
  { pose proof Hp as Hp'. vm_compute in Hp'. injection Hp' as <- _. eauto. }
  destruct Ho as (view & prev & ->).
  destruct (accepted_bid_is_visible aliceBids60 (initialStore 0) view prev st'
              (gatesFree_initial 0) Hp) as ((item' & Hget & _ & Hcur & _) & _ & Hother).
  exists view, prev, st', item'. split; [reflexivity|]. split; [exact Hget|].
  split; [exact Hcur|]. apply Hother. discriminate.
Defined.

(** ** What the bidder is told *)

Lemma placeBid_too_low c st low st' :
  gatesFree st -> placeBid c st = Some (BID_TOO_LOW low, st') ->
  auctionItems st' = auctionItems st /\
  exists k item, foundAt (c_itemId c) (auctionItems st) k item /\
    low = currentBid item /\ JS.le (c_bidAmount c) low = true.
Proof.
  intros Hfree Hp.
  destruct (findItem (c_itemId c) (auctionItems st)) as [[k item]|] eqn:E.
  - apply findItem_Some in E.
    destruct (placeBid_found c st k item Hfree E) as (o & st1 & Hp1 & _ & Hres).
    rewrite Hp in Hp1. injection Hp1 as <- <-.
    destruct (auctionEndTime item <=? c_now c)%Z; [discriminate|].
    destruct (JS.le (c_bidAmount c) (currentBid item)) eqn:Hle; [|discriminate].
    injection Hres as -> Hitems. eauto 10.
  - apply findItem_None in E.
    destruct (placeBid_not_found c st Hfree E) as (st1 & Hp1 & _).
    rewrite Hp in Hp1. discriminate.
Qed.

(** X12: what the bidder is told agrees with the store.  In every state of
    the running server, a request with a callback whose payload is an
    object with primitive values for [itemId], [bidAmount] and [bidderId]
    (or without them) is handled to the end and gets exactly one reply: a
    success reply carries the view of the item as [getItemById] returns it
    afterwards and comes with an UPDATE_BID broadcast; every other reply
    comes with no broadcast and no change to the items; and the
    [currentBid] in a BID_TOO_LOW reply is the item's [currentBid], which
    the rejected amount is [<=] (for two numbers: at most). *)
Theorem reply_matches_store (st : store) (r : request)
    (itemId bidAmount bidderId : value) :
  serverReachable st ->
  r_data r = PObject itemId bidAmount bidderId -> r_callback r = true ->
  exists h answer, onBidPlaced r st = Returned h /\ acks h = [answer] /\
    match answer with
    | ReplySuccess _ view =>
        (exists stored, getItemById itemId (after h) = Some stored /\
                        view = bidItemView stored) /\
        exists prev, head (emitted h) =
          Some (UPDATE_BID (bv_id view) (bv_currentBid view)
                  (bv_highestBidderId view) prev (r_serverTime r))
    | ReplyFailure err _ cur =>
        emitted h = [] /\ auctionItems (after h) = auctionItems st /\
        (err = VStr "BID_TOO_LOW" ->
         exists item, getItemById itemId (after h) = Some item /\
                      cur = currentBid item /\ JS.le bidAmount cur = true /\
                      forall a z, bidAmount = VNum (Fin a) ->
                                  cur = VNum (Fin z) -> (a <= z)%Z)
    | ReplyInvalidData => emitted h = [] /\ after h = st
    end.
Proof.
  intros Hreach Hdata Hcb. destruct (serverReachable_ok st Hreach) as [Hfree _].
  unfold onBidPlaced. rewrite Hdata, Hcb.
  destruct (negb (ToBoolean itemId) || negb (ToBoolean bidAmount)
            || negb (ToBoolean bidderId)).
  - eexists _, _. split; [reflexivity|]. split; [reflexivity|]. simpl. auto.
  - set (c := {| c_itemId := itemId; c_bidderId := bidderId;
                 c_bidAmount := bidAmount; c_now := r_now r; c_uuid := r_uuid r |}).
    destruct (placeBid_step c st Hfree) as (o & st' & Hp & _). rewrite Hp.
    destruct o as [| | low | view prev];
      (eexists _, _; split; [reflexivity|]; split; [reflexivity|]); simpl.
    + split; [reflexivity|]. split; [|discriminate].
      exact (rejected_items_same c st _ st' Hfree Hp I).
    + split; [reflexivity|]. split; [|discriminate].
      exact (rejected_items_same c st _ st' Hfree Hp I).
    + destruct (placeBid_too_low c st low st' Hfree Hp)
        as (Hitems & k & item & Hfound & -> & Hle).
      split; [reflexivity|]. split; [exact Hitems|]. intros _.
      exists item. split; [|split; [reflexivity|split; [exact Hle|]]].
      * apply getItemById_stored. exists k. now rewrite Hitems.
      * intros a z Ha Hz. cbn [c_bidAmount c] in Hle. rewrite Ha, Hz in Hle.
        now apply le_Fin_iff.
    + destruct (placeBid_accepted_read c st view prev st' Hfree Hp)
        as ((stored & Hget & Hview & _) & _ & _).
      split; [eauto|]. eexists. reflexivity.
Qed.

Lemma reply_matches_store_witness :
  serverReachable (initialStore 0) /\
  exists h answer,
    onBidPlaced aliceRequest60 (initialStore 0) = Returned h /\
    acks h = [answer].
Proof.
  split; [apply reach_init|].
  destruct (reply_matches_store (initialStore 0) aliceRequest60
              (VStr "item-001") (VNum (Fin 60)) (VStr "alice")
              (reach_init 0) eq_refl eq_refl) as (h & answer & Hh & Hacks & _).
  exists h, answer. auto.
Defined.

(** ** The dashboard of a client *)

Lemma handleBidUpdate_accepted items k item c prev t :
  NoDup (map id items) -> items !! k = Some item ->
  Client.handleBidUpdate
    (UPDATE_BID (id item) (c_bidAmount c) (c_bidderId c) prev t)
    (map publicView items)
  = map publicView (<[k := applyBid c item]> items).
Proof.
  intros Hnd Hk. apply list_eq. intros j. unfold Client.handleBidUpdate.
  rewrite !list_lookup_fmap. destruct (decide (j = k)) as [->|Hne].
  - rewrite list_lookup_insert_eq by (eapply lookup_lt_Some; eauto).
    rewrite Hk. simpl. now rewrite String.eqb_refl.
  - rewrite list_lookup_insert_ne by auto.
    destruct (items !! j) as [other|] eqn:Hj; [|reflexivity]. simpl.
    destruct (String.eqb_spec (id other) (id item)) as [E|_]; [|reflexivity].
    exfalso. apply Hne. eapply (NoDup_lookup _ j k (id other) Hnd).
    + now rewrite list_lookup_fmap, Hj.
    + now rewrite list_lookup_fmap, Hk, E.
Qed.

Lemma applyBroadcasts_one st r h :
  serverReachable st -> onBidPlaced r st = Returned h ->
  Client.applyBroadcasts (emitted h) (getAllItems st) = getAllItems (after h).
Proof.
  intros Hreach Hh. destruct (serverReachable_ok st Hreach) as [Hfree _].
  pose proof (serverReachable_NoDup st Hreach) as Hnd.
  destruct (onBidPlaced_cases r st h Hh) as (i & a & b & _ & [Hbad | Hgood]).
  - destruct Hbad as (_ & _ & -> & ->). reflexivity.
  - destruct Hgood as (_ & _ & _ & o & Hp & _ & ->).
    destruct o as [| | low | view prev];
      try (unfold getAllItems;
           now rewrite (rejected_items_same _ st _ (after h) Hfree Hp I)).
    destruct (placeBid_accepted _ st view prev (after h) Hfree Hp)
      as (k & item & (Hk & _) & -> & -> & Hitems).
    unfold getAllItems. rewrite Hitems.
    rewrite <- (handleBidUpdate_accepted _ k item (callOf i a b r)
                  (highestBidderId item) (r_serverTime r) Hnd Hk).
    unfold Client.applyBroadcasts. simpl.
    now destruct (ToBoolean (highestBidderId item)
                  && negb (strict_eq (highestBidderId item) b)).
Qed.

(** X13: a dashboard stays in sync with the server.  From any state of the
    running server, over any run of [BID_PLACED] requests that carry a
    payload object, the server handles every request, and the item list a
    client holds after applying [handleBidUpdate] to each broadcast, in
    order, starting from the list [GET /api/items] gave it, is the list
    [GET /api/items] gives at the end. *)
Theorem dashboard_stays_in_sync (rs : list request) : forall (st : store),
  serverReachable st -> Forall hasPayload rs ->
  exists replies events st',
    serveBids rs st = Some (replies, events, st') /\
    serverReachable st' /\ length replies = length rs /\
    forall t items t',
      body (getItemsRoute t st) = ItemsBody t items ->
      body (getItemsRoute t' st') =
        ItemsBody t' (Client.applyBroadcasts events items).
Proof.
  induction rs as [|r rs IH]; intros st Hreach Hrs.
  - exists [], [], st. split; [reflexivity|]. split; [exact Hreach|].
    split; [reflexivity|]. intros t items t' [= <-]. reflexivity.
  - apply Forall_cons_1 in Hrs as [(i & a & b & Hr) Hrs].
    assert (Hh : exists h, onBidPlaced r st = Returned h).
    { destruct (serverReachable_ok st Hreach) as [Hfree _].
      unfold onBidPlaced. rewrite Hr.
      destruct (negb (ToBoolean i) || negb (ToBoolean a) || negb (ToBoolean b));
        [eauto|].
      destruct (placeBid_step {| c_itemId := i; c_bidderId := b; c_bidAmount := a;
                                 c_now := r_now r; c_uuid := r_uuid r |} st Hfree)
        as (o & st' & -> & _).
      destruct o; eauto. }
    destruct Hh as [h Hh].
    destruct (IH (after h) (reach_bid r h st Hreach Hh) Hrs)
      as (replies & events & st' & Hrun & Hreach' & Hlen & Hsync).
    exists (acks h :: replies), (emitted h ++ events)%list, st'.
    simpl. rewrite Hh, Hrun. split; [reflexivity|]. split; [exact Hreach'|].
    split; [now rewrite Hlen|]. intros t items t' [= <-].
    pose proof (Hsync t (getAllItems (after h)) t' eq_refl) as Hs.
    unfold getItemsRoute in *. cbn [body] in *. injection Hs as Hs.
    rewrite Hs, <- (applyBroadcasts_one st r h Hreach Hh).
    unfold Client.applyBroadcasts. now rewrite fold_left_app.
Qed.

Lemma dashboard_stays_in_sync_witness :
  serverReachable (initialStore 0) /\
  Forall hasPayload [aliceRequest60; zeroAmountRequest; bobRequest70] /\
  exists replies events st',
    serveBids [aliceRequest60; zeroAmountRequest; bobRequest70] (initialStore 0)
      = Some (replies, events, st') /\
    Client.applyBroadcasts events (getAllItems (initialStore 0)) = getAllItems st'.
Proof.
  assert (H : Forall hasPayload [aliceRequest60; zeroAmountRequest; bobRequest70]).
  { repeat apply Forall_cons_2; try apply Forall_nil_2; do 3 eexists; reflexivity. }
  split; [apply reach_init|]. split; [exact H|].
  destruct (dashboard_stays_in_sync _ (initialStore 0) (reach_init 0) H)
    as (replies & events & st' & Hrun & _ & _ & Hsync).
  exists replies, events, st'. split; [exact Hrun|].
  specialize (Hsync 0%Z (getAllItems (initialStore 0)) 0%Z eq_refl).
  now injection Hsync as <-.
Defined.

(** ** The routes *)

(** X14: the catalogue never changes while the server runs: in every
    state there are the six seeded items, in the seeded order, each with
    its seeded [id], [title], [description], [imageUrl] and
    [startingPrice]; hence [GET /api/items/:id] answers 200, with the item
    of that id, for each of the six seeded ids, and 404 for any other
    parameter. *)
Theorem catalogue_is_fixed (st : store) :
  serverReachable st ->
  map catalogue (auctionItems st) = map catalogue (createSampleItems 0) /\
  forall param t,
    (In param sampleIds ->
     exists item, getItemRoute param t st =
                    {| status := 200; body := ItemBody t item |} /\
                  id item = param /\ In item (auctionItems st)) /\
    (~ In param sampleIds ->
     getItemRoute param t st =
       {| status := 404; body := ErrorBody "Item not found" |}).
Proof.
  intros Hreach. split; [now apply serverReachable_catalogue|].
  pose proof (serverReachable_ids st Hreach) as Hids.
  remember sampleIds as ids eqn:Eids. clear Eids.
  intros param t. unfold getItemRoute, getItemById.
  destruct (findItem (VStr param) (auctionItems st)) as [[k item]|] eqn:E; simpl.
  - apply findItem_Some in E. destruct E as (Hk & [= Hid] & _). split.
    + intros _. exists item. split; [reflexivity|]. split; [exact Hid|].
      apply list_elem_of_In. eapply list_elem_of_lookup_2, Hk.
    + intros Hnot. exfalso. apply Hnot. rewrite <- Hids, <- Hid.
      apply in_map. apply list_elem_of_In. eapply list_elem_of_lookup_2, Hk.
  - apply findItem_None in E. split; [|reflexivity].
    intros Hin. exfalso. rewrite <- Hids in Hin.
    apply in_map_iff in Hin as (item & Hid & Hitem).
    unfold noItem in E. rewrite List.Forall_forall in E.
    apply (E item Hitem). now rewrite Hid.
Qed.

Lemma catalogue_is_fixed_witness :
  serverReachable (initialStore 0) /\
  exists item, getItemRoute "item-004" 5 (initialStore 0) =
                 {| status := 200; body := ItemBody 5 item |} /\
               id item = "item-004".
Proof.
  split; [apply reach_init|].
  destruct (catalogue_is_fixed (initialStore 0) (reach_init 0)) as [_ H].
  destruct (H "item-004" 5) as [Hin _].
  destruct Hin as (item & Hroute & Hid & _); [simpl; tauto|].
  exists item. auto.
Defined.

(** ** The bid button and the card *)

Lemma ToBoolean_VStr (s : string) : s <> "" -> ToBoolean (VStr s) = true.
Proof.
  intros Hs. simpl. destruct (String.eqb_spec s ""); [contradiction|reflexivity].
Qed.

Lemma strict_eq_VStr_r (v : value) (s : string) :
  strict_eq v (VStr s) = true <-> v = VStr s.
Proof.
  unfold strict_eq.
  destruct v as [| | b | [|z] | t]; rewrite ?bool_decide_eq_true; split; congruence.
Qed.

(** Rounding to the nearest double leaves the integers up to [2 ^ 53]
    alone, and only takes [0] to [0]. *)
Lemma nearest_exact (z : Z) : (Z.abs z < 2 ^ 53)%Z -> JS.nearest z = z.
Proof.
  intros Hz. unfold JS.nearest.
  destruct (Z.leb_spec (Z.log2 (Z.abs z) - 52) 0) as [_|Hk]; [reflexivity|].
  exfalso. destruct (Z.eq_dec (Z.abs z) 0) as [E|Hne].
  - rewrite E in Hk. simpl in Hk. lia.
  - assert (Hlog : (Z.log2 (Z.abs z) < 53)%Z) by (apply Z.log2_lt_pow2; lia).
    lia.
Qed.

Lemma nearest_zero (z : Z) : JS.nearest z = 0%Z <-> z = 0%Z.
Proof.
  split; [|intros ->; reflexivity].
  unfold JS.nearest.
  destruct (Z.leb_spec (Z.log2 (Z.abs z) - 52) 0) as [_|Hk]; [auto|].
  set (a := Z.abs z) in *. set (k := (Z.log2 a - 52)%Z) in *.
  assert (Ha : (0 < a)%Z).
  { destruct (Z.eq_dec a 0) as [E|Hne]; [|subst a; lia].
    exfalso. subst k. rewrite E in Hk. simpl in Hk. lia. }
  destruct (Z.log2_spec a Ha) as [Hlow _].
  assert (Hpow : (0 < 2 ^ k)%Z) by (apply Z.pow_pos_nonneg; lia).
  assert (Hle : (2 ^ k <= a)%Z).
  { etransitivity; [|exact Hlow]. apply Z.pow_le_mono_r; lia. }
  assert (Hm : (0 < a / 2 ^ k)%Z) by (apply Z.div_str_pos; lia).
  intros H. exfalso.
  apply Z.mul_eq_0 in H as [H|H]; [subst a; lia|].
  apply Z.mul_eq_0 in H as [H|H]; [|lia].
  destruct (_ || _) in H; lia.
Qed.

(** [JS.nearest] is the Number value of a whole number: what
    [JS.round64] yields for it, short of the overflow to [Infinity]. *)
Lemma Qred_inject_Z (z : Z) : Qred (inject_Z z) = inject_Z z.
Proof.
  unfold Qred, inject_Z.
  pose proof (Z.ggcd_gcd z 1) as Hg. pose proof (Z.ggcd_correct_divisors z 1) as Hd.
  destruct (Z.ggcd z 1) as [g [aa bb]]. simpl in *.
  rewrite Z.gcd_1_r in Hg. subst g. destruct Hd as [-> Hb].
  rewrite !Z.mul_1_l in *. now subst bb.
Qed.

Lemma Qred_eq_inject_Z (q : Q) (z : Z) : (q == inject_Z z)%Q -> Qred q = inject_Z z.
Proof. intros H. rewrite <- Qred_inject_Z. now apply Qred_complete. Qed.

Lemma pow2_shift (n u : Z) :
  (u <= 0)%Z -> (inject_Z (n * 2 ^ (- u)) * pow2 u == inject_Z n)%Q.
Proof.
  intros Hu. unfold pow2.
  destruct (Z.leb_spec 0 u) as [H0|Hneg].
  - assert (u = 0%Z) as -> by lia. unfold Qeq, Qmult, inject_Z. change (2 ^ (- 0))%Z with 1%Z.
    change (2 ^ 0)%Z with 1%Z. simpl. lia.
  - assert (Hpos : (0 < 2 ^ (- u))%Z) by (apply Z.pow_pos_nonneg; lia).
    unfold Qeq, Qmult, inject_Z. simpl.
    rewrite Pos.mul_1_l, Z2Pos.id by exact Hpos. lia.
Qed.

Lemma nearest_double_integer (n : positive) :
  (JS.nearest (Z.pos n) < 2 ^ 1024)%Z ->
  nearest_double n 1 = DFin (inject_Z (JS.nearest (Z.pos n))).
Proof.
  unfold nearest_double, JS.nearest.
  change (Z.log2 1) with 0%Z. rewrite Z.sub_0_r.
  change (Z.abs (Z.pos n)) with (Z.pos n). change (Z.sgn (Z.pos n)) with 1%Z.
  rewrite !Z.mul_1_l.
  set (L := Z.log2 (Z.pos n)).
  assert (HL : (0 <= L)%Z) by apply Z.log2_nonneg.
  destruct (Z.log2_spec (Z.pos n) ltac:(lia)) as [Hlow Hhigh]. fold L in Hlow, Hhigh.
  destruct (Z.leb_spec 0 L) as [_|]; [|lia].
  destruct (Z.ltb_spec (Z.pos n) (2 ^ L)) as [|_]; [lia|].
  rewrite Z.max_l by lia.
  destruct (Z.leb_spec (L - 52) 0) as [Hk|Hk].
  - intros _.
    assert (Hnum : (if (0 <=? L - 52)%Z then Z.pos n
                    else (Z.pos n * 2 ^ (- (L - 52)))%Z)
                   = (Z.pos n * 2 ^ (- (L - 52)))%Z).
    { destruct (Z.leb_spec 0 (L - 52)); [|reflexivity].
      replace (L - 52)%Z with 0%Z by lia. simpl. lia. }
    assert (Hden : (if (0 <=? L - 52)%Z then (2 ^ (L - 52))%Z else 1%Z) = 1%Z).
    { destruct (Z.leb_spec 0 (L - 52)); [|reflexivity].
      replace (L - 52)%Z with 0%Z by lia. reflexivity. }
    fold L.
    rewrite Hnum, Hden, Z.div_1_r, Z.mod_1_r. simpl (1 <? 2 * 0)%Z. simpl (1 =? 2 * 0)%Z.
    cbn [orb andb].
    destruct (Z.ltb_spec 971 (L - 52)); [lia|].
    destruct (Z.eqb_spec (L - 52) 971); [lia|]. cbn [orb andb].
    f_equal. apply Qred_eq_inject_Z. apply pow2_shift. exact Hk.
  - destruct (Z.leb_spec 0 (L - 52)) as [_|]; [|lia].
    set (k := (L - 52)%Z) in *.
    assert (Hpow : (0 < 2 ^ k)%Z) by (apply Z.pow_pos_nonneg; lia).
    assert (Hhalf : (2 ^ k = 2 * 2 ^ (k - 1))%Z).
    { rewrite <- Z.pow_succ_r by lia. f_equal. lia. }
    set (m := (Z.pos n / 2 ^ k)%Z). set (r := (Z.pos n mod 2 ^ k)%Z).
    assert (Hcond : ((2 ^ k <? 2 * r)%Z || ((2 ^ k =? 2 * r)%Z && Z.odd m)) =
                    ((2 ^ (k - 1) <? r)%Z || ((2 ^ (k - 1) =? r)%Z && Z.odd m))).
    { f_equal; [|f_equal].
      - destruct (Z.ltb_spec (2 ^ k) (2 * r)), (Z.ltb_spec (2 ^ (k - 1)) r); auto; lia.
      - destruct (Z.eqb_spec (2 ^ k) (2 * r)), (Z.eqb_spec (2 ^ (k - 1)) r); auto; lia. }
    rewrite Hcond.
    set (m' := if (2 ^ (k - 1) <? r)%Z || ((2 ^ (k - 1) =? r)%Z && Z.odd m)
               then (m + 1)%Z else m).
    assert (Hm : (2 ^ 52 <= m)%Z).
    { subst m. apply Z.div_le_lower_bound; [exact Hpow|].
      rewrite <- Z.pow_add_r by lia. replace (k + 52)%Z with L by lia. exact Hlow. }
    clear Hcond.
    assert (Hm' : (m <= m')%Z) by (subst m'; destruct (_ || _); lia).
    intros Hfin.
    assert (Hover : (971 <? k)%Z || ((k =? 971)%Z && (2 ^ 53 <=? m')%Z) = false).
    { apply orb_false_iff. split.
      - apply Z.ltb_ge. destruct (Z.le_gt_cases k 971) as [|Hbig]; [assumption|].
        exfalso. apply (Z.lt_irrefl (2 ^ 1024)).
        eapply Z.le_lt_trans; [|exact Hfin].
        replace 1024%Z with (52 + 972)%Z by reflexivity. rewrite Z.pow_add_r by lia.
        apply Z.mul_le_mono_nonneg; try lia.
        apply Z.pow_le_mono_r; lia.
      - destruct (Z.eqb_spec k 971) as [E|]; [|reflexivity]. simpl.
        apply Z.leb_gt. destruct (Z.lt_ge_cases m' (2 ^ 53)) as [|Hbig]; [assumption|].
        exfalso. apply (Z.lt_irrefl (2 ^ 1024)).
        eapply Z.le_lt_trans; [|exact Hfin].
        replace 1024%Z with (53 + 971)%Z by reflexivity. rewrite Z.pow_add_r by lia.
        rewrite E. apply Z.mul_le_mono_nonneg; lia. }
    rewrite Hover. f_equal. apply Qred_eq_inject_Z.
    unfold pow2. destruct (Z.leb_spec 0 k); [|lia].
    unfold Qeq, Qmult, inject_Z. simpl. reflexivity.
Qed.

Lemma round64_integer (z : Z) :
  (Z.abs (JS.nearest z) < 2 ^ 1024)%Z ->
  round64 (inject_Z z) = DFin (inject_Z (JS.nearest z)).
Proof.
  destruct z as [|n|n]; intros H.
  - reflexivity.
  - unfold round64. simpl Qnum. simpl Qden. apply nearest_double_integer. lia.
  - unfold round64. simpl Qnum. simpl Qden.
    assert (Hopp : JS.nearest (Z.neg n) = (- JS.nearest (Z.pos n))%Z).
    { unfold JS.nearest. change (Z.abs (Z.neg n)) with (Z.pos n).
      change (Z.abs (Z.pos n)) with (Z.pos n).
      destruct (_ <=? 0)%Z; [reflexivity|].
      change (Z.sgn (Z.neg n)) with (- (1))%Z. change (Z.sgn (Z.pos n)) with 1%Z.
      apply Z.mul_opp_l. }
    rewrite Hopp in *. rewrite nearest_double_integer by lia.
    simpl. f_equal. apply Qred_eq_inject_Z. unfold Qeq, Qopp, inject_Z. simpl. ring.
Qed.

(** X15: the [Bid +$10] button.  A connected client whose card shows the
    whole number [p] as the price of an open auction sends the double
    nearest to [p + 10], which is [p + 10] itself while that is below
    [2 ^ 53] in absolute value.  The server, whose price for that item is
    the number [z], answers INVALID_DATA and changes nothing when the
    amount is [0] (the card showed [-10]); otherwise it accepts the bid
    exactly when the amount is above [z], making it the price and the user
    the leader, and else answers BID_TOO_LOW with [z] and changes nothing.
    So the bid of a card that is in sync ([p = z]) is accepted unless [p]
    is [-10] or so large that adding ten does not change it. *)
Theorem plus_ten_bid (st : store) (k : nat) (item : AuctionItem)
    (p z : Z) (userId : string) (now : Z) (uuid : string) (t : Z) :
  gatesFree st ->
  foundAt (VStr (id item)) (auctionItems st) k item ->
  currentBid item = VNum (Fin z) ->
  (now < auctionEndTime item)%Z ->
  id item <> "" -> userId <> "" ->
  exists amount h,
    r_data (Client.handlePlaceBid (id item) (VNum (Fin p)) userId now uuid t)
      = PObject (VStr (id item)) (VNum (Fin amount)) (VStr userId) /\
    ((Z.abs (p + 10) < 2 ^ 53)%Z -> amount = (p + 10)%Z) /\
    (amount = 0%Z <-> p = (-10)%Z) /\
    onBidPlaced (Client.handlePlaceBid (id item) (VNum (Fin p)) userId now uuid t) st
      = Returned h /\
    if (amount =? 0)%Z
    then after h = st /\ acks h = [ReplyInvalidData]
    else if (z <? amount)%Z
    then exists stored,
           getItemById (VStr (id item)) (after h) = Some stored /\
           currentBid stored = VNum (Fin amount) /\
           highestBidderId stored = VStr userId /\
           acks h = [ReplySuccess (MsgLit "Bid placed successfully!")
                       (bidItemView stored)]
    else auctionItems (after h) = auctionItems st /\
         acks h = [ReplyFailure (VStr "BID_TOO_LOW")
                     (MsgTemplate "Bid must be higher than current: $" (VNum (Fin z)))
                     (VNum (Fin z))].
Proof.
  intros Hfree Hfound Hz Hopen Hid Huser.
  exists (JS.nearest (p + 10)). 
  unfold Client.handlePlaceBid, onBidPlaced.
  cbn [r_data r_callback r_now r_uuid r_serverTime Client.plusTen].
  rewrite (ToBoolean_VStr _ Hid), (ToBoolean_VStr _ Huser).
  cbn [ToBoolean negb orb]. rewrite negb_involutive, orb_false_r.
  set (amount := JS.nearest (p + 10)).
  assert (Hzero : amount = 0%Z <-> p = (-10)%Z).
  { unfold amount. rewrite nearest_zero. lia. }
  assert (Hexact : (Z.abs (p + 10) < 2 ^ 53)%Z -> amount = (p + 10)%Z)
    by apply nearest_exact.
  destruct (Z.eqb_spec amount 0) as [E0|Hne].
  { eexists. split; [reflexivity|]. split; [exact Hexact|].
    split; [exact Hzero|]. split; [reflexivity|]. split; reflexivity. }
  set (c := {| c_itemId := VStr (id item); c_bidderId := VStr userId;
               c_bidAmount := VNum (Fin amount);
               c_now := now; c_uuid := uuid |}).
  destruct (placeBid_found c st k item Hfree Hfound) as (o & st' & Hrun & _ & Hres).
  rewrite Hrun. apply Z.leb_gt in Hopen. cbn [c_now c_bidAmount c] in Hres.
  rewrite Hopen, Hz, le_Fin in Hres.
  destruct (Z.ltb_spec z amount) as [Hhigh|Hlow].
  - replace (amount <=? z)%Z with false in Hres by (symmetry; apply Z.leb_gt; lia).
    injection Hres as -> Hitems. eexists. split; [reflexivity|].
    split; [exact Hexact|]. split; [exact Hzero|]. split; [reflexivity|].
    destruct (placeBid_accepted_read c st _ _ st' Hfree Hrun)
      as ((stored & Hget & Hview & Hcur & Hlead & _) & _ & _).
    exists stored. cbn [after acks ack]. split; [exact Hget|].
    split; [exact Hcur|]. split; [exact Hlead|]. now rewrite Hview.
  - replace (amount <=? z)%Z with true in Hres by (symmetry; apply Z.leb_le; lia).
    injection Hres as -> Hitems. eexists. split; [reflexivity|].
    split; [exact Hexact|]. split; [exact Hzero|]. split; [reflexivity|].
    cbn [after acks ack]. split; [exact Hitems|]. reflexivity.
Qed.

Lemma plus_ten_bid_witness :
  gatesFree (initialStore 0) /\
  foundAt (VStr (id (keyboard 0))) (auctionItems (initialStore 0)) 0 (keyboard 0) /\
  exists h stored,
    onBidPlaced (Client.handlePlaceBid "item-001" (VNum (Fin 50)) "alice" 1000 "u" 1001)
      (initialStore 0) = Returned h /\
    getItemById (VStr "item-001") (after h) = Some stored /\
    currentBid stored = VNum (Fin 60).
Proof.
  split; [apply gatesFree_initial|]. split; [apply (foundAt_keyboard 0)|].
  destruct (plus_ten_bid (initialStore 0) 0 (keyboard 0) 50 50 "alice" 1000 "u" 1001
              (gatesFree_initial 0) (foundAt_keyboard 0) eq_refl)
    as (amount & h & _ & Hamount & _ & Hh & Hres);
    try (simpl; lia); try discriminate.
  rewrite Hamount in Hres by (simpl; lia).
  simpl in Hres. destruct Hres as (stored & Hget & Hcur & _).
  exists h, stored. auto.
Defined.

(** X16: the flash of a card.  For the broadcasts of one accepted bid,
    a card of the item concerned that showed the previous leader ends up
    showing the new price and leader, with the red [outbid] flash exactly
    when its user was the leader and no longer is, and the green [up] flash
    otherwise; a card of any other item is left as it was. *)
Theorem card_flash (st : store) (r : request) (h : handled)
    (view : BidItemView) (prev : value) (itemId userId : string)
    (c : Client.card) :
  gatesFree st ->
  onBidPlaced r st = Returned h ->
  placed h = Some (ACCEPTED view prev) ->
  let c' := fold_left (fun c e => Client.cardOn itemId userId e c) (emitted h) c in
  (bv_id view <> itemId -> c' = c) /\
  (bv_id view = itemId -> Client.card_highestBidderId c = prev ->
   Client.card_currentBid c' = bv_currentBid view /\
   Client.card_highestBidderId c' = bv_highestBidderId view /\
   Client.card_priceFlash c' =
     Some (if decide (prev = VStr userId /\ bv_highestBidderId view <> VStr userId)
           then Client.FlashOutbid else Client.FlashUp)).
Proof.
  intros Hfree Hh Hplaced.
  destruct (onBidPlaced_cases r st h Hh) as (i & a & b & _ & [Hbad | Hgood]).
  { destruct Hbad as (_ & Hnone & _). congruence. }
  destruct Hgood as (_ & _ & _ & o & Hp & Ho & ->).
  rewrite Ho in Hplaced. injection Hplaced as ->.
  assert (Hnew : bv_highestBidderId view = b).
  { destruct (placeBid_accepted _ st view prev (after h) Hfree Hp)
      as (k & item & _ & -> & _). reflexivity. }
  split.
  - intros Hother.
    assert (Hneq : String.eqb (bv_id view) itemId = false)
      by now apply String.eqb_neq.
    destruct (ToBoolean prev && negb (strict_eq prev b)); simpl;
      unfold Client.cardOn; simpl; rewrite Hneq; reflexivity.
  - intros <- Hsync. rewrite Hnew.
    assert (Hflash :
              Some (if strict_eq b (VStr userId) then Client.FlashUp
                    else if strict_eq prev (VStr userId) then Client.FlashOutbid
                    else Client.FlashUp) =
              Some (if decide (prev = VStr userId /\ b <> VStr userId)
                    then Client.FlashOutbid else Client.FlashUp)).
    { destruct (strict_eq b (VStr userId)) eqn:Enew;
        destruct (strict_eq prev (VStr userId)) eqn:Eprev;
        case_decide as Hd; try reflexivity; exfalso.
      all: try (apply strict_eq_VStr_r in Enew).
      all: try (apply strict_eq_VStr_r in Eprev).
      all: try (destruct Hd as [Hd1 Hd2]; congruence).
      all: try (apply Hd; split; [exact Eprev|]; intros E';
                apply strict_eq_VStr_r in E'; congruence).
      all: destruct Hd as [Hd1 Hd2]; apply strict_eq_VStr_r in Hd1; congruence. }
    rewrite <- Hflash. clear Hflash.
    destruct (ToBoolean prev && negb (strict_eq prev b)) eqn:Eout;
      simpl; unfold Client.cardOn; simpl; rewrite ?String.eqb_refl, ?Hsync; simpl.
    + destruct (strict_eq prev (VStr userId)) eqn:Eprev; simpl;
        (split; [reflexivity|]); (split; [reflexivity|]); try reflexivity;
        [|now destruct (strict_eq b (VStr userId))].
      destruct (strict_eq b (VStr userId)) eqn:Enew; [|reflexivity].
      apply strict_eq_VStr_r in Enew.
      apply andb_true_iff in Eout as [_ Eout].
      rewrite Enew, Eprev in Eout. discriminate.
    + split; [reflexivity|]. split; [reflexivity|].
      now destruct (strict_eq b (VStr userId)), (strict_eq prev (VStr userId)).
Qed.

Lemma card_flash_witness :
  exists h1 h2 view prev,
    gatesFree (after h1) /\
    onBidPlaced bobRequest70 (after h1) = Returned h2 /\
    placed h2 = Some (ACCEPTED view prev) /\
    Client.card_priceFlash
      (fold_left (fun c e => Client.cardOn "item-001" "alice" e c) (emitted h2)
         {| Client.card_currentBid := VNum (Fin 60);
            Client.card_highestBidderId := VStr "alice";
            Client.card_priceFlash := None |})
    = Some Client.FlashOutbid.
Proof.
  destruct (onBidPlaced aliceRequest60 (initialStore 0)) as [h1| |] eqn:E1;
    try (vm_compute in E1; discriminate).
  pose proof (proj1 (serverReachable_ok _ (reach_bid _ _ _ (reach_init 0) E1)))
    as Hfree.
  vm_compute in E1. injection E1 as E1.
  destruct (onBidPlaced bobRequest70 (after h1)) as [h2| |] eqn:E2;
    try (rewrite <- E1 in E2; vm_compute in E2; discriminate).
  assert (Hplaced : exists view, placed h2 = Some (ACCEPTED view (VStr "alice")) /\
                                 bv_id view = "item-001" /\
                                 bv_highestBidderId view = VStr "bob").
  { pose proof E2 as E2'. rewrite <- E1 in E2'. vm_compute in E2'.
    injection E2' as <-. eexists. repeat split. }
  destruct Hplaced as (view & Hplaced & Hid & Hlead).
  destruct (card_flash (after h1) bobRequest70 h2 view (VStr "alice")
              "item-001" "alice"
              {| Client.card_currentBid := VNum (Fin 60);
                 Client.card_highestBidderId := VStr "alice";
                 Client.card_priceFlash := None |} Hfree E2 Hplaced)
    as [_ Hcard].
  destruct (Hcard Hid eq_refl) as (_ & _ & Hflash).
  exists h1, h2, view, (VStr "alice").
  split; [exact Hfree|]. split; [exact E2|]. split; [exact Hplaced|].
  rewrite Hflash, Hlead. reflexivity.
Defined.


(** ** The client's clock *)

Ltac push_inject_Z :=
  repeat first
    [ rewrite <- Z.add_opp_r | rewrite inject_Z_plus | rewrite inject_Z_opp
    | rewrite inject_Z_mult ];
  change (inject_Z 0) with 0%Q; change (inject_Z 1) with 1%Q.

(** X17: the offset [syncTime] computes.  If the server's clock is the
    client's plus [d], the request takes [up] ms to reach the server, the
    reply [down] ms to come back, and the callback reads the clock a second
    time [lag] ms after the first, then the new [timeOffset] is
    [d + (up - down) / 2 - lag]: it is exactly [d] when the two delays are
    equal and [lag = 0], and with [lag = 0] it is never off by more than
    half the round trip. *)
Theorem syncTime_error (clientTime up down lag d : Z) :
  (0 <= up)%Z -> (0 <= down)%Z -> (clientTime + up + d <> 0)%Z ->
  exists offset,
    Timer.syncTime clientTime (Some (clientTime + up + d)%Z)
      (clientTime + up + down)%Z (clientTime + up + down + lag)%Z = Some offset /\
    (offset == inject_Z d + (inject_Z up - inject_Z down) / 2 - inject_Z lag)%Q /\
    (lag = 0%Z -> up = down -> offset == inject_Z d)%Q /\
    (lag = 0%Z ->
     - (inject_Z (up + down) / 2) <= offset - inject_Z d /\
     offset - inject_Z d <= inject_Z (up + down) / 2)%Q.
Proof.
  intros Hup Hdown Hnz. unfold Timer.syncTime.
  apply Z.eqb_neq in Hnz. rewrite Hnz. eexists. split; [reflexivity|].
  rewrite Zle_Qle in Hup, Hdown. change (inject_Z 0) with 0%Q in Hup, Hdown.
  assert (E : (inject_Z (clientTime + up + d) +
               inject_Z (clientTime + up + down - clientTime) / 2 -
               inject_Z (clientTime + up + down + lag) ==
               inject_Z d + (inject_Z up - inject_Z down) / 2 - inject_Z lag)%Q).
  { push_inject_Z. field. }
  split; [exact E|]. split.
  - intros -> ->. rewrite E. change (inject_Z 0) with 0%Q. field.
  - intros ->. rewrite E. push_inject_Z.
    unfold Qdiv. change (/ 2)%Q with (1 # 2)%Q. split; lra.
Qed.

Lemma syncTime_error_witness :
  (0 <= 40)%Z /\ (0 <= 10)%Z /\ (1000 + 40 + 5000 <> 0)%Z /\
  exists offset,
    Timer.syncTime 1000 (Some (1000 + 40 + 5000)%Z) (1000 + 40 + 10)%Z
      (1000 + 40 + 10 + 0)%Z = Some offset /\
    (offset == inject_Z 5000 + (inject_Z 40 - inject_Z 10) / 2 - inject_Z 0)%Q.
Proof.
  split; [lia|]. split; [lia|]. split; [lia|].
  destruct (syncTime_error 1000 40 10 0 5000) as (offset & Hsync & Hoff & _);
    try lia.
  exists offset. auto.
Defined.

Lemma Qfloor_bounds (x : Q) :
  (inject_Z (Qfloor x) <= x /\ x < inject_Z (Qfloor x) + 1)%Q.
Proof.
  split; [apply Qfloor_le|].
  pose proof (Qlt_floor x) as H. now rewrite inject_Z_plus in H.
Qed.

Lemma Z_between (n : Z) (x : Q) (k : Z) :
  (inject_Z n <= x)%Q -> (x < inject_Z k)%Q -> (n < k)%Z.
Proof. intros H1 H2. rewrite Zlt_Qlt. lra. Qed.

Lemma Z_below (n : Z) (x : Q) (k : Z) :
  (inject_Z k <= x)%Q -> (x < inject_Z n + 1)%Q -> (k <= n)%Z.
Proof.
  intros H1 H2. apply Z.lt_succ_r. rewrite <- Z.add_1_r.
  rewrite Zlt_Qlt, inject_Z_plus. change (inject_Z 1) with 1%Q. lra.
Qed.

(** X18: what a running timer shows.  For a positive [timeLeft] the timer
    shows minutes, seconds and tenths with [0 <= minutes],
    [0 <= seconds < 60] and [0 <= tenths <= 9] that are [timeLeft] rounded
    down to a tenth of a second
    ([minutes*60000 + seconds*1000 + tenths*100 <= timeLeft], less than
    100 ms more); it is marked urgent exactly under 30 s, critical
    exactly under 10 s, so critical implies urgent. *)
Theorem render_decodes (timeLeft : Q) :
  (0 < timeLeft)%Q ->
  exists minutes seconds tenths isUrgent isCritical,
    Timer.render (Some timeLeft) =
      Timer.Running minutes seconds tenths isUrgent isCritical /\
    (0 <= minutes)%Z /\ (0 <= seconds < 60)%Z /\ (0 <= tenths <= 9)%Z /\
    (inject_Z (minutes * 60000 + seconds * 1000 + tenths * 100) <= timeLeft)%Q /\
    (timeLeft < inject_Z (minutes * 60000 + seconds * 1000 + tenths * 100) + 100)%Q /\
    (isUrgent = true <-> (timeLeft < 30000)%Q) /\
    (isCritical = true <-> (timeLeft < 10000)%Q) /\
    (isCritical = true -> isUrgent = true).
Proof.
  unfold Timer.render.
  - intros Hpos.
    destruct (Qle_bool timeLeft 0) eqn:E; [apply Qle_bool_iff in E; lra|].
    set (q := Qfloor (timeLeft / 1000)).
    destruct (Qfloor_bounds (timeLeft / 1000)) as [Hq1 Hq2]. fold q in Hq1, Hq2.
    assert (Et : (timeLeft == timeLeft / 1000 * 1000)%Q) by field.
    set (x := (timeLeft / 1000)%Q) in *.
    assert (Hq0 : (0 <= q)%Z).
    { apply (Z_below q x 0); [change (inject_Z 0) with 0%Q; lra | exact Hq2]. }
    assert (Htrunc : Timer.Qtrunc x = q).
    { unfold Timer.Qtrunc.
      replace (Qle_bool 0 x) with true; [reflexivity|].
      symmetry. apply Qle_bool_iff. lra. }
    unfold Timer.Qrem. change (timeLeft / inject_Z 1000)%Q with x.
    rewrite Htrunc.
    set (r := (timeLeft - inject_Z 1000 * inject_Z q)%Q).
    assert (Hr : (r == timeLeft - 1000 * inject_Z q)%Q) by reflexivity.
    set (d := Qfloor (r / 100)).
    destruct (Qfloor_bounds (r / 100)) as [Hd1 Hd2]. fold d in Hd1, Hd2.
    assert (Er : (r == r / 100 * 100)%Q) by field.
    set (y := (r / 100)%Q) in *.
    assert (Hd : (0 <= d <= 9)%Z).
    { split.
      - apply (Z_below d y 0); [change (inject_Z 0) with 0%Q; lra | exact Hd2].
      - apply Z.lt_succ_r. apply (Z_between d y 10); [exact Hd1|].
        change (inject_Z 10) with 10%Q. lra. }
    assert (Hm : Qfloor (inject_Z q / 60) = (q / 60)%Z).
    { unfold Qfloor, Qdiv, Qmult, Qinv, inject_Z. simpl.
      now rewrite Z.mul_1_r. }
    rewrite Hm.
    pose proof (Z.div_mod q 60 ltac:(lia)) as Hdm.
    pose proof (Z.mod_pos_bound q 60 ltac:(lia)) as Hmod.
    rewrite (Z.rem_mod_nonneg q 60) by lia.
    assert (Hdiv0 : (0 <= q / 60)%Z) by (apply Z.div_pos; lia).
    exists (q / 60)%Z, (q mod 60)%Z, d, (q <? 30)%Z, (q <? 10)%Z.
    split; [reflexivity|]. split; [exact Hdiv0|]. split; [exact Hmod|].
    split; [exact Hd|].
    assert (Esum : (q / 60 * 60000 + q mod 60 * 1000 + d * 100
                    = 1000 * q + 100 * d)%Z) by lia.
    rewrite Esum. push_inject_Z.
    change (inject_Z 1000) with 1000%Q. change (inject_Z 100) with 100%Q.
    split; [lra|]. split; [lra|].
    assert (Hu : forall k, (0 < k)%Z ->
              ((q <? k)%Z = true <-> (timeLeft < inject_Z (k * 1000))%Q)).
    { intros k Hk. rewrite Z.ltb_lt. rewrite inject_Z_mult.
      change (inject_Z 1000) with 1000%Q. split.
      - intros Hlt. assert (H1 : (q + 1 <= k)%Z) by lia.
        rewrite Zle_Qle, inject_Z_plus in H1. change (inject_Z 1) with 1%Q in H1.
        lra.
      - intros Hlt. apply (Z_between q x k); [exact Hq1 | lra]. }
    split; [apply (Hu 30%Z); lia|]. split; [apply (Hu 10%Z); lia|].
    rewrite !Z.ltb_lt. lia.
Qed.

Lemma render_decodes_witness :
  (0 < 83450)%Q /\
  exists minutes seconds tenths isUrgent isCritical,
    Timer.render (Some 83450%Q) =
      Timer.Running minutes seconds tenths isUrgent isCritical /\
    (0 <= seconds < 60)%Z /\ (0 <= tenths <= 9)%Z.
Proof.
  split; [reflexivity|].
  destruct (render_decodes 83450%Q) as (m & sec & d & u & c & Hr & _ & Hs & Hd & _);
    [reflexivity|].
  exists m, sec, d, u, c. auto.
Defined.

(** X19: the timer and the server agree on the deadline.  When the
    client's [timeOffset] is the whole number of milliseconds [d] by which
    the server's clock is ahead, the timer of an item shows ENDED at a
    client clock reading [now] exactly when a bid on that item evaluated at
    the same instant (server reading [now + d]) is turned down with
    AUCTION_ENDED; [onEnd] is called with that first ENDED. *)
Theorem timer_agrees_with_server (st : store) (c : call) (k : nat)
    (item : AuctionItem) (now d : Z) :
  gatesFree st -> foundAt (c_itemId c) (auctionItems st) k item ->
  c_now c = (now + d)%Z ->
  let '(timeLeft, hasEnded, called) :=
    Timer.calculateTimeLeft (auctionEndTime item) (inject_Z d) now false in
  (Timer.render (Some timeLeft) = Timer.Ended <->
   exists st', placeBid c st = Some (AUCTION_ENDED, st')) /\
  (called = true <-> Timer.render (Some timeLeft) = Timer.Ended) /\
  hasEnded = called.
Proof.
  intros Hfree Hfound Hnow.
  destruct (placeBid_found c st k item Hfree Hfound) as (o & st' & Hp & _ & Hres).
  unfold Timer.calculateTimeLeft.
  destruct (Qle_bool (inject_Z (auctionEndTime item) - (inject_Z now + inject_Z d)) 0)
    eqn:E.
  - apply Qle_bool_iff in E.
    assert (Hend : (auctionEndTime item <= c_now c)%Z).
    { rewrite Hnow, Zle_Qle, inject_Z_plus. lra. }
    apply Z.leb_le in Hend. rewrite Hend in Hres. injection Hres as -> _.
    simpl. split; [|split; [tauto | reflexivity]].
    split; [eauto | reflexivity].
  - assert (Hpos : ~ (inject_Z (auctionEndTime item) - (inject_Z now + inject_Z d) <= 0)%Q).
    { intros H. apply Qle_bool_iff in H. congruence. }
    assert (Hopen : (c_now c < auctionEndTime item)%Z).
    { rewrite Hnow, Zlt_Qlt, inject_Z_plus. lra. }
    unfold Timer.render. rewrite E.
    split; [|split; [split; discriminate | reflexivity]].
    split; [discriminate|]. intros (st1 & Hp1). rewrite Hp in Hp1.
    injection Hp1 as -> _. apply Z.leb_gt in Hopen. rewrite Hopen in Hres.
    destruct (JS.le (c_bidAmount c) (currentBid item)); discriminate.
Qed.

Lemma timer_agrees_with_server_witness :
  gatesFree (initialStore 0) /\
  foundAt (c_itemId aliceBids60) (auctionItems (initialStore 0)) 0 (keyboard 0) /\
  c_now aliceBids60 = (400 + 600)%Z /\
  (Timer.render (Some (fst (fst (Timer.calculateTimeLeft
                                   (auctionEndTime (keyboard 0)) (inject_Z 600)
                                   400 false)))) = Timer.Ended <->
   exists st', placeBid aliceBids60 (initialStore 0) = Some (AUCTION_ENDED, st')).
Proof.
  split; [apply gatesFree_initial|]. split; [apply (foundAt_keyboard 0)|].
  split; [reflexivity|].
  pose proof (timer_agrees_with_server (initialStore 0) aliceBids60 0 (keyboard 0)
                400 600 (gatesFree_initial 0) (foundAt_keyboard 0) eq_refl) as H.
  destruct (Timer.calculateTimeLeft (auctionEndTime (keyboard 0)) (inject_Z 600)
              400 false) as [[timeLeft hasEnded] called].
  destruct H as [H _]. exact H.
Defined.

Lemma runTimer_calls endTime timeOffset nows : forall hasEnded,
  let calls := length (List.filter snd (Timer.runTimer endTime timeOffset nows hasEnded)) in
  Forall (fun p => 0 <= fst p)%Q (Timer.runTimer endTime timeOffset nows hasEnded) /\
  (hasEnded = true -> calls = 0%nat) /\
  (hasEnded = false ->
   (calls <= 1)%nat /\
   (calls = 1%nat <->
    Exists (fun now => inject_Z endTime - (inject_Z now + timeOffset) <= 0)%Q nows)).
Proof.
  induction nows as [|now nows IH]; intros hasEnded; simpl.
  - split; [constructor|]. split; [reflexivity|]. intros _. split; [lia|].
    split; [discriminate|]. intros H. inversion H.
  - unfold Timer.calculateTimeLeft.
    destruct (Qle_bool (inject_Z endTime - (inject_Z now + timeOffset)) 0) eqn:E.
    + destruct (IH true) as (Hpos & Hnone & _). specialize (Hnone eq_refl).
      simpl in Hnone. split; [constructor; [simpl; lra | exact Hpos]|].
      simpl. destruct hasEnded; simpl; rewrite Hnone.
      * split; [reflexivity|]. discriminate.
      * split; [discriminate|]. intros _. split; [lia|].
        split; [|reflexivity]. intros _. apply Exists_cons_hd.
        now apply Qle_bool_iff.
    + assert (Hgt : ~ (inject_Z endTime - (inject_Z now + timeOffset) <= 0)%Q).
      { intros H. apply Qle_bool_iff in H. congruence. }
      destruct (IH hasEnded) as (Hpos & Hnone & Hone).
      split; [constructor; [simpl; lra | exact Hpos]|].
      simpl. split; [exact Hnone|]. intros Hb.
      destruct (Hone Hb) as [Hle Hiff]. split; [exact Hle|].
      rewrite Hiff. split.
      * intros H. now apply Exists_cons_tl.
      * intros H. inversion H; subst; [contradiction | assumption].
Qed.

Lemma runTimer_length endTime timeOffset nows : forall hasEnded,
  length (Timer.runTimer endTime timeOffset nows hasEnded) = length nows.
Proof.
  induction nows as [|now nows IH]; intros b; simpl; [reflexivity|].
  destruct (Timer.calculateTimeLeft endTime timeOffset now b) as [[tl b'] called].
  simpl. now rewrite IH.
Qed.

(** X20: over any sequence of clock readings, the timer never sets a
    negative [timeLeft] and calls [onEnd] at most once: exactly once when
    at some reading the server time [now + timeOffset] has reached
    [endTime], and never otherwise. *)
Theorem onEnd_called_once (endTime : Z) (timeOffset : Q) (nows : list Z) :
  let ticks := Timer.runTimer endTime timeOffset nows false in
  length ticks = length nows /\
  Forall (fun p => 0 <= fst p)%Q ticks /\
  (length (List.filter snd ticks) <= 1)%nat /\
  (length (List.filter snd ticks) = 1%nat <->
   Exists (fun now => inject_Z endTime <= inject_Z now + timeOffset)%Q nows).
Proof.
  destruct (runTimer_calls endTime timeOffset nows false) as (Hpos & _ & Hone).
  destruct (Hone eq_refl) as [Hle Hiff]. simpl. split; [|split; [exact Hpos|]].
  - apply runTimer_length.
  - split; [exact Hle|]. rewrite Hiff. apply Exists_proper; [|reflexivity].
    intros now. split; intros H; lra.
Qed.

(** ** Leaders and histories on the running server *)

(** X21: on the running server, where the handler lets no request with a
    falsy [itemId], [bidAmount] or [bidderId] through to [placeBid], every
    item has either no bid recorded, no leader and its [startingPrice] as
    [currentBid], or at least one bid recorded and a leader; so
    [highestBidderId] is [null] exactly when [bidHistory] is empty, even if
    amounts that are not numbers were accepted; and every recorded bid has
    a truthy bidder and a truthy amount. *)
Theorem leader_iff_bids (st : store) :
  serverReachable st ->
  forall k item, auctionItems st !! k = Some item ->
    (highestBidderId item = VNull <-> bidHistory item = []) /\
    (bidHistory item = [] -> currentBid item = VNum (Fin (startingPrice item))) /\
    Forall (fun b => ToBoolean (bid_bidderId b) = true /\
                     ToBoolean (bid_amount b) = true) (bidHistory item).
Proof.
  intros Hreach.
  assert (H : Forall (fun item =>
              ((bidHistory item = [] /\ highestBidderId item = VNull /\
                currentBid item = VNum (Fin (startingPrice item))) \/
               (bidHistory item <> [] /\ ToBoolean (highestBidderId item) = true)) /\
              Forall (fun b => ToBoolean (bid_bidderId b) = true /\
                               ToBoolean (bid_amount b) = true) (bidHistory item))
            (auctionItems st)).
  { induction Hreach as [now | r h st Hreach IH Hh | now st Hreach _].
    - apply Forall_sampleItems. intros. simpl. split; [left; auto|constructor].
    - destruct (serverReachable_ok st Hreach) as [Hfree _].
      destruct (onBidPlaced_cases r st h Hh) as (i & a & b & _ & [Hbad | Hgood]).
      + destruct Hbad as (_ & _ & _ & ->). exact IH.
      + destruct Hgood as (_ & Ha & Hb & o & Hp & _).
        destruct (placeBid_step_of _ st o (after h) Hfree Hp) as (_ & [[_ E] | Hacc]).
        * now rewrite E.
        * destruct Hacc as (k & item & (Hk & _) & _ & _ & _ & E).
          rewrite E. apply Forall_insert; [exact IH|].
          rewrite Forall_lookup in IH. destruct (IH k item Hk) as [_ Hbids].
          simpl. split.
          -- right. split; [|exact Hb]. now destruct (bidHistory item).
          -- apply Forall_app. split; [exact Hbids|]. repeat constructor; assumption.
    - apply Forall_sampleItems. intros. simpl. split; [left; auto|constructor]. }
  intros k item Hk. rewrite Forall_lookup in H.
  destruct (H k item Hk) as [[(Hnil & Hnull & Hcur) | (Hbids & Hlead)] Hall].
  - split; [tauto|]. split; [auto | exact Hall].
  - split; [|split; [contradiction | exact Hall]].
    split; [|contradiction]. intros E. rewrite E in Hlead. discriminate.
Qed.

Lemma leader_iff_bids_witness :
  serverReachable (initialStore 0) /\
  forall k item, auctionItems (initialStore 0) !! k = Some item ->
    (highestBidderId item = VNull <-> bidHistory item = []).
Proof.
  split; [apply reach_init|]. intros k item Hk.
  exact (proj1 (leader_iff_bids (initialStore 0) (reach_init 0) k item Hk)).
Defined.
